(** * Simple-Shell: a shallow embedding of [zarembmj_shell.cpp]

    The development follows the source file top to bottom:
    - [split]          : the word splitter built on [std::quoted];
    - [runCommand]     : echo of the argument list, then fork and exec;
    - [process]        : the interpreter loop with its local [childList];
    - [breakDownURL]   : decomposition of a URL with [size_t] arithmetic;
    - [setupHTTPStream], [processScript] : nested scripts.

    Strings are [string]; a [size_t] is a [Z] reduced modulo [2^64];
    a [std::vector] is a [list]; an input stream is the list of the lines
    that [std::getline] will deliver.  The [ChildProcess] class and the
    file and network streams are taken through the interface [System]. *)

From Stdlib Require Import ZArith List String Ascii Bool Lia.
Import ListNotations.
Local Open Scope string_scope.
Local Open Scope list_scope.
Local Open Scope Z_scope.

(* ------------------------------------------------------------------ *)
(** ** [std::string] with [size_t] positions *)

Module Str.

(** [std::string::npos], the largest [size_t] of a 64-bit target. *)
Definition npos : Z := 2 ^ 64 - 1.

(** Arithmetic on [size_t] wraps around. *)
Definition wrap (z : Z) : Z := z mod 2 ^ 64.

Definition size (s : string) : Z := Z.of_nat (String.length s).

(** Scan shared by the two overloads of [find]: the first index [i]
    with [pos <= i] at which the remaining text satisfies [here]. *)
Fixpoint find_from (here : string -> bool) (s : string) (i pos : Z) : Z :=
  match s with
  | EmptyString => if (pos <=? i) && here s then i else npos
  | String _ s' =>
      if (pos <=? i) && here s then i else find_from here s' (i + 1) pos
  end.

(** [s.find(pat, pos)] *)
Definition find (s pat : string) (pos : Z) : Z :=
  find_from (String.prefix pat) s 0 pos.

Definition starts_with_char (c : ascii) (s : string) : bool :=
  match s with
  | String d _ => Ascii.eqb c d
  | EmptyString => false
  end.

(** [s.find(c, pos)] *)
Definition find_char (s : string) (c : ascii) (pos : Z) : Z :=
  find_from (starts_with_char c) s 0 pos.

(** [s.substr(pos, n)]: throws [std::out_of_range] ([None]) when
    [pos > size()], otherwise the characters
    [pos .. pos + min(n, size() - pos)). *)
Definition substr (s : string) (pos n : Z) : option string :=
  if size s <? pos then None
  else Some (String.substring (Z.to_nat pos)
                              (Z.to_nat (Z.min n (size s - pos))) s).

(** [s.empty()] *)
Definition empty (s : string) : bool :=
  match s with EmptyString => true | _ => false end.

End Str.

(* ------------------------------------------------------------------ *)
(** ** [split]: extraction of words with [std::quoted] *)

Definition StrVec := list string.

Module Lexer.

Definition delim : ascii := ascii_of_nat 34.
Definition escape : ascii := "\"%char.

(** [std::isspace] in the "C" locale: space, \t, \n, \v, \f, \r. *)
Definition isspace (c : ascii) : bool :=
  let n := nat_of_ascii c in
  (Nat.eqb n 32 || (Nat.leb 9 n && Nat.leb n 13))%bool.

(** The stream is the list of the characters not yet consumed. *)
Definition stream := list ascii.

Fixpoint skipws (s : stream) : stream :=
  match s with
  | c :: s' => if isspace c then skipws s' else s
  | [] => []
  end.

(** [is >> str] after the sentry skipped white space: characters up to
    the next white space or the end of the stream. *)
Fixpoint read_word (s : stream) : list ascii * stream :=
  match s with
  | c :: s' =>
      if isspace c then ([], s)
      else let '(w, r) := read_word s' in (c :: w, r)
  | [] => ([], [])
  end.

(** Body of a quoted word, [skipws] switched off: an escape character is
    dropped and the character after it kept, an unescaped delimiter ends
    the word.  The stream fails ([None]) when it ends first. *)
Fixpoint read_quoted (s : stream) (acc : list ascii)
  : option (list ascii * stream) :=
  match s with
  | [] => None
  | c :: s' =>
      if Ascii.eqb c escape then
        match s' with
        | [] => None
        | d :: s'' => read_quoted s'' (acc ++ [d])
        end
      else if Ascii.eqb c delim then Some (acc, s')
      else read_quoted s' (acc ++ [c])
  end.

(** [is >> std::quoted(word)]: [None] when the stream is in a failed
    state afterwards, else the word and the rest of the stream. *)
Definition extract_quoted (s : stream) : option (list ascii * stream) :=
  match skipws s with
  | [] => None
  | c :: s' =>
      if Ascii.eqb c delim then read_quoted s' []
      else Some (read_word (c :: s'))
  end.

(** [while (is >> std::quoted(word)) argList.push_back(word);]
    Every successful extraction consumes a character, so the length of
    the stream bounds the number of iterations. *)
Fixpoint split_loop (fuel : nat) (s : stream) (argList : StrVec) : StrVec :=
  match fuel with
  | O => argList
  | S fuel' =>
      match extract_quoted s with
      | None => argList
      | Some (word, s') =>
          split_loop fuel' s' (argList ++ [string_of_list_ascii word])
      end
  end.

End Lexer.

Definition split (line : string) : StrVec :=
  let chars := list_ascii_of_string line in
  Lexer.split_loop (S (List.length chars)) chars [].

(* ------------------------------------------------------------------ *)
(** ** [breakDownURL] *)

Definition breakDownURL (url : string) : option (string * string * string) :=
  let hostStart := Str.wrap (Str.find url "//" 0 + 2) in
  let pathStart := Str.find_char url "/" hostStart in
  let portPos := Str.find_char url ":" hostStart in
  let hostEnd := if portPos =? Str.npos then pathStart else portPos in
  match Str.substr url hostStart (Str.wrap (hostEnd - hostStart)) with
  | None => None
  | Some hostName =>
      match Str.substr url pathStart Str.npos with
      | None => None
      | Some path =>
          if negb (portPos =? Str.npos) then
            match Str.substr url (Str.wrap (portPos + 1))
                             (Str.wrap (pathStart - portPos - 1)) with
            | None => None
            | Some port => Some (hostName, port, path)
            end
          else Some (hostName, "80", path)
      end
  end.

(* ------------------------------------------------------------------ *)
(** ** The environment of the shell *)

(** A [ChildProcess] object, once [forkNexec] ran, stands for the child
    it forked; copies of the object (as [push_back] makes) denote the same
    child. *)
Definition ChildProcess := nat.

(** [using ProcessList = std::vector<ChildProcess>] *)
Definition ProcessList := list ChildProcess.

(** What the program takes from [ChildProcess.h], [<fstream>] and
    [boost::asio]: all of it acts on the state of the operating system.
    - [forkNexec argList] starts a child and gives its handle;
    - [wait cp] blocks until the child ended and gives its exit code;
    - [ifstream name] gives the lines [std::getline] reads from the file
      (none when the file cannot be opened: the stream is then failed);
    - [tcp_iostream host port request] connects, sends the request and
      gives the lines of the response (none when the connection fails). *)
Class System (OS : Type) : Type := {
  forkNexec : StrVec -> OS -> ChildProcess * OS;
  wait : ChildProcess -> OS -> Z * OS;
  ifstream : string -> OS -> list string * OS;
  tcp_iostream : string -> string -> string -> OS -> list string * OS
}.

(** What an observer of the shell sees, in order.  The events of a nested
    script are kept together under [Nested]. *)
#[warnings="-register-all"]
Inductive event : Type :=
| Prompt (text : string)
| Running (argList : StrVec)
| Fork (cp : ChildProcess) (argList : StrVec)
| Wait (cp : ChildProcess) (code : Z)
| ExitCode (code : Z)
| Nested (fileOrUrl : string) (parallel : bool) (sub : list event).

Definition trace := list event.

(** Ways in which a run stops early: an index past the end of a vector
    ([argList[i]], undefined behaviour), the exception of [substr], and the
    exhaustion of the nesting budget of this model. *)
Inductive fault : Type :=
| IndexOutOfRange (i : nat)
| StdOutOfRange
| OutOfFuel.

Inductive result (A : Type) : Type :=
| Ok (a : A)
| Stop (f : fault).
Arguments Ok {A} a.
Arguments Stop {A} f.

(* ------------------------------------------------------------------ *)
(** ** The interpreter *)

Section Shell.

Context {OS : Type} {sys : System OS}.

(** Computations of the shell: they read and change the operating
    system, emit events, and may stop with a fault. *)
Definition M (A : Type) : Type := OS -> result A * trace * OS.

Definition ret {A} (a : A) : M A := fun os => (Ok a, [], os).

Definition raise {A} (f : fault) : M A := fun os => (Stop f, [], os).

Definition bind {A B} (m : M A) (k : A -> M B) : M B :=
  fun os =>
    match m os with
    | (Ok a, t1, os1) =>
        let '(r, t2, os2) := k a os1 in (r, t1 ++ t2, os2)
    | (Stop f, t1, os1) => (Stop f, t1, os1)
    end.

Definition emit (e : event) : M unit := fun os => (Ok tt, [e], os).

Notation "x <- m ;; k" := (bind m (fun x => k))
  (at level 61, m at next level, right associativity).
Notation "m ;; k" := (bind m (fun _ => k))
  (at level 61, right associativity).

(** [argList[i]] *)
Definition at_index (argList : StrVec) (i : nat) : M string :=
  match nth_error argList i with
  | Some word => ret word
  | None => raise (IndexOutOfRange i)
  end.

Definition do_fork (argList : StrVec) : M ChildProcess :=
  fun os => let '(cp, os') := forkNexec argList os in
            (Ok cp, [Fork cp argList], os').

Definition do_wait (cp : ChildProcess) : M Z :=
  fun os => let '(code, os') := wait cp os in
            (Ok code, [Wait cp code], os').

Definition runCommand (argList : StrVec) : M ChildProcess :=
  emit (Running argList) ;;
  cp <- do_fork argList ;;
  ret cp.

(** [std::cout << "Exit code: " << cp.wait() << std::endl] *)
Definition report (cp : ChildProcess) : M unit :=
  code <- do_wait cp ;;
  emit (ExitCode code).

(** [line.empty() || (line[0] == '#')] *)
Definition skipped (line : string) : bool :=
  Str.empty line || Str.starts_with_char "#" line.

Section Loop.

(** The forward declaration of [processScript]. *)
Variable processScript : string -> bool -> M unit.

(** The [while] loop of [process]; [input] holds the lines that
    [std::getline] has yet to deliver. *)
Fixpoint loop (input : list string) (prompt : string) (parallel : bool)
         (childList : ProcessList) : M ProcessList :=
  emit (Prompt prompt) ;;
  match input with
  | [] => ret childList
  | line :: rest =>
      if (line =? "exit")%string then ret childList
      else if skipped line then loop rest prompt parallel childList
      else
        let argList := split line in
        verb <- at_index argList 0 ;;
        if ((verb =? "SERIAL") || (verb =? "PARALLEL"))%string then
          ref <- at_index argList 1 ;;
          processScript ref (verb =? "PARALLEL")%string ;;
          loop rest prompt parallel childList
        else
          cp <- runCommand argList ;;
          if negb parallel then
            report cp ;;
            loop rest prompt parallel childList
          else
            loop rest prompt parallel (childList ++ [cp])
  end.

(** [for (auto& proc : childList) ...] *)
Fixpoint drain (childList : ProcessList) : M unit :=
  match childList with
  | [] => ret tt
  | proc :: others => report proc ;; drain others
  end.

Definition process_with (input : list string) (prompt : string)
           (parallel : bool) : M unit :=
  childList <- loop input prompt parallel [] ;;
  drain childList.

End Loop.

Definition CR : string := String (ascii_of_nat 13) "".
Definition CRLF : string := String (ascii_of_nat 13) (String (ascii_of_nat 10) "").

(** [for (hdr; getline(client, hdr) && !hdr.empty() && hdr != "\r";) {}]:
    the lines left in the stream afterwards. *)
Fixpoint skipHeaders (client : list string) : list string :=
  match client with
  | [] => []
  | hdr :: rest =>
      if negb (Str.empty hdr) && negb (hdr =? CR)%string then skipHeaders rest
      else rest
  end.

Definition setupHTTPStream (url : string) : M (list string) :=
  match breakDownURL url with
  | None => raise StdOutOfRange
  | Some (hostname, port, path) =>
      fun os =>
        let '(client, os') :=
          tcp_iostream hostname port
            ("GET " ++ path ++ " HTTP/1.1" ++ CRLF ++
             "Host: " ++ hostname ++ CRLF ++
             "Connection: Close" ++ CRLF ++ CRLF)%string os in
        (Ok (skipHeaders client), [], os')
  end.

Definition open_file (name : string) : M (list string) :=
  fun os => let '(script, os') := ifstream name os in (Ok script, [], os').

(** The events of a nested script are grouped in the trace. *)
Definition nested (fileOrUrl : string) (parallel : bool) (m : M unit)
  : M unit :=
  fun os => let '(r, t, os') := m os in
            (r, [Nested fileOrUrl parallel t], os').

(** [processScript] and [process] call each other without bound (a script
    may name itself); [fuel] bounds the depth of nesting. *)
Fixpoint processScript (fuel : nat) (fileOrUrl : string) (parallel : bool)
  : M unit :=
  match fuel with
  | O => raise OutOfFuel
  | S fuel' =>
      nested fileOrUrl parallel
        (if Str.find fileOrUrl "http://" 0 =? 0 then
           client <- setupHTTPStream fileOrUrl ;;
           process_with (processScript fuel') client "" parallel
         else
           script <- open_file fileOrUrl ;;
           process_with (processScript fuel') script "" parallel)
  end.

Definition process (fuel : nat) (input : list string) (prompt : string)
           (parallel : bool) : M unit :=
  process_with (processScript fuel) input prompt parallel.

End Shell.

Arguments M : clear implicits.

(** A small operating system to run the shell on: children are numbered
    from 100 in the order they are forked, a child's exit code is its
    number modulo 3, there is one script file and one web server. *)
Module Sim.

Definition OS := nat.

#[export] Instance sim : System OS := {|
  forkNexec := fun _ n => ((100 + n)%nat, S n);
  wait := fun cp n => (Z.of_nat cp mod 3, n);
  ifstream := fun name n =>
    (if (name =? "loop.sh")%string
     then ["echo a"; "# note"; "PARALLEL loop.sh"]
     else if (name =? "leaf.sh")%string
     then ["echo b"; "echo c"]
     else [], n);
  tcp_iostream := fun host port request n =>
    (["HTTP/1.1 200 OK"; "Server: sim"; ""; "ls -l"; "exit"; "date"], n)
|}.

End Sim.

Import Sim.

(* ------------------------------------------------------------------ *)
(** ** Vocabulary of the statements *)

(** The double quote, and a command line with a quoted argument:
    [cat "a b"]. *)
Definition dquote : string := String Lexer.delim "".
Definition cat_a_b : string := ("cat " ++ dquote ++ "a b" ++ dquote)%string.

(** The lines that reach [runCommand]: not the exit command, not skipped,
    at least one word, and the first word is not a composite verb. *)
Definition generic (line : string) : bool :=
  negb (line =? "exit")%string && negb (skipped line) &&
  match split line with
  | [] => false
  | verb :: _ => negb ((verb =? "SERIAL") || (verb =? "PARALLEL"))%string
  end.

(** Handles of the children forked, resp. waited for, by an invocation
    itself: events inside [Nested] belong to other invocations. *)
Fixpoint forks (t : trace) : ProcessList :=
  match t with
  | Fork cp _ :: t' => cp :: forks t'
  | _ :: t' => forks t'
  | [] => []
  end.

Fixpoint waits (t : trace) : ProcessList :=
  match t with
  | Wait cp _ :: t' => cp :: waits t'
  | _ :: t' => waits t'
  | [] => []
  end.

(** Argument lists echoed, and exit codes reported, by an invocation. *)
Fixpoint echoes (t : trace) : list StrVec :=
  match t with
  | Running argList :: t' => argList :: echoes t'
  | _ :: t' => echoes t'
  | [] => []
  end.

Fixpoint reports (t : trace) : list Z :=
  match t with
  | ExitCode code :: t' => code :: reports t'
  | _ :: t' => reports t'
  | [] => []
  end.

Definition is_prompt (e : event) : bool :=
  match e with Prompt _ => true | _ => false end.

(** The trace with the prompts of the invocation itself left out. *)
Definition without_prompts (t : trace) : trace :=
  filter (fun e => negb (is_prompt e)) t.

(** [prepend t x]: the run [x] preceded by the events [t]. *)
Definition prepend {OS A : Type} (t : trace) (x : result A * trace * OS)
  : result A * trace * OS :=
  let '(r, t', os) := x in (r, t ++ t', os).

(** The events of one line of a serial script made of commands: a prompt
    alone for a skipped line; for a command the prompt, the echo, the
    fork, the wait on that same child and the report of its exit code. *)
Definition serial_block (prompt line : string) (block : trace) : Prop :=
  if skipped line then block = [Prompt prompt]
  else exists cp code,
      block = [Prompt prompt; Running (split line); Fork cp (split line);
               Wait cp code; ExitCode code].

(** The same for a parallel script: the command is echoed and forked,
    nothing more. *)
Definition parallel_block (prompt line : string) (block : trace) : Prop :=
  if skipped line then block = [Prompt prompt]
  else exists cp,
      block = [Prompt prompt; Running (split line); Fork cp (split line)].

(** The trace of a drain: for each handle, in order, the wait and the
    report of the exit code it gave. *)
Definition drained (childList : ProcessList) (codes : list Z) : trace :=
  flat_map (fun '(cp, code) => [Wait cp code; ExitCode code])
           (combine childList codes).

(** A nested script shows in the trace of its caller as one [Nested]
    event at most. *)
Definition enclosed {OS : Type} (ps : string -> bool -> M OS unit) : Prop :=
  forall fileOrUrl parallel os,
    let '(_, t, _) := ps fileOrUrl parallel os in
    forks t = [] /\ waits t = [] /\ reports t = [].

(** What the loop of an invocation does with its ProcessGroup: in
    parallel mode it waits for nothing and reports nothing, and the
    group grows by the handles the invocation forked itself, in order;
    in serial mode the group is left as it was. *)
Definition keeps_group {OS : Type} (parallel : bool)
           (childList : ProcessList)
           (x : result ProcessList * trace * OS) : Prop :=
  let '(r, t, _) := x in
  (parallel = true -> waits t = [] /\ reports t = []) /\
  match r with
  | Ok childList' =>
      childList' = childList ++ (if parallel then forks t else [])
  | Stop _ => True
  end.

(** The stream [processScript] hands to [process]: the body of the HTTP
    response when the reference begins with "http://", else the file. *)
Definition script_source {OS : Type} {sys : System OS} (fileOrUrl : string)
  : M OS (list string) :=
  if Str.find fileOrUrl "http://" 0 =? 0 then setupHTTPStream fileOrUrl
  else open_file fileOrUrl.

(** Two runs that end alike, leave the operating system in the same
    state, and differ at most in the prompts of the invocation. *)
Definition same_but_prompts {OS A : Type}
           (x y : result A * trace * OS) : Prop :=
  let '(r1, t1, os1) := x in
  let '(r2, t2, os2) := y in
  r1 = r2 /\ os1 = os2 /\ without_prompts t1 = without_prompts t2.

(* ------------------------------------------------------------------ *)
(** ** Vocabulary of the statements on words *)

(** The characters of a line, as [split] reads them. *)
Definition chars (line : string) : list ascii := list_ascii_of_string line.

(** [split] on the characters still to read. *)
Definition split_rest (s : Lexer.stream) : StrVec :=
  Lexer.split_loop (S (List.length s)) s [].

(** A line of white space only. *)
Definition all_space (line : string) : bool :=
  forallb Lexer.isspace (chars line).

(** A word that needs no quotes: not empty, no white space in it, and its
    first character is not the double quote. *)
Definition plain_word (w : string) : bool :=
  match chars w with
  | [] => false
  | c :: _ =>
      negb (Ascii.eqb c Lexer.delim)
      && forallb (fun d => negb (Lexer.isspace d)) (chars w)
  end.

(** A text without double quote, resp. without double quote and
    backslash. *)
Definition no_quote (w : string) : bool :=
  forallb (fun d => negb (Ascii.eqb d Lexer.delim)) (chars w).

Definition no_quote_or_escape (w : string) : bool :=
  forallb (fun d => negb (Ascii.eqb d Lexer.delim)
                    && negb (Ascii.eqb d Lexer.escape)) (chars w).

(** The characters of a line that are not white space. *)
Definition without_space (line : string) : string :=
  string_of_list_ascii
    (filter (fun d => negb (Lexer.isspace d)) (chars line)).

(** The place where an unquoted word ends: the end of the line or a
    white space. *)
Definition at_break (s : Lexer.stream) : bool :=
  match s with
  | [] => true
  | c :: _ => Lexer.isspace c
  end.

Definition nonspace (d : ascii) : bool := negb (Lexer.isspace d).

Definition not_delim (d : ascii) : bool := negb (Ascii.eqb d Lexer.delim).

(* ------------------------------------------------------------------ *)
(** ** Vocabulary of the statements on URLs *)

(** The character [c] does not occur in [s]. *)
Definition lacks (c : ascii) (s : string) : bool :=
  forallb (fun d => negb (Ascii.eqb c d)) (chars s).

(** The host start that [breakDownURL] computes. *)
Definition hostStart_of (url : string) : Z :=
  Str.wrap (Str.find url "//" 0 + 2).

(* ------------------------------------------------------------------ *)
(** ** Vocabulary of the statements on scripts *)

(** A line that the header loop of [setupHTTPStream] reads past: not
    empty and not a lone carriage return. *)
Definition header_line (hdr : string) : bool :=
  negb (Str.empty hdr) && negb (hdr =? CR)%string.

(** The request [setupHTTPStream] sends. *)
Definition http_request (hostname path : string) : string :=
  ("GET " ++ path ++ " HTTP/1.1" ++ CRLF ++
   "Host: " ++ hostname ++ CRLF ++
   "Connection: Close" ++ CRLF ++ CRLF)%string.

(** How a run ended. *)
Definition outcome {OS A : Type} (x : result A * trace * OS) : result A :=
  fst (fst x).

Definition trace_of {OS A : Type} (x : result A * trace * OS) : trace :=
  snd (fst x).

(** [completed strict r]: no condition when [strict] is off, else the run
    came to its end. *)
Definition completed {A : Type} (strict : bool) (r : result A) : Prop :=
  strict = false \/ exists a, r = Ok a.

(** The prompts of a trace, at every depth of nesting: those of the
    invocation itself show [text], those of the scripts nested in it are
    empty. *)
#[warnings="-register-all"]
Inductive prompt_ok : string -> event -> Prop :=
| prompt_ok_prompt text : prompt_ok text (Prompt text)
| prompt_ok_running text argList : prompt_ok text (Running argList)
| prompt_ok_fork text cp argList : prompt_ok text (Fork cp argList)
| prompt_ok_wait text cp code : prompt_ok text (Wait cp code)
| prompt_ok_exit text code : prompt_ok text (ExitCode code)
| prompt_ok_nested text fileOrUrl parallel sub :
    Forall (prompt_ok "") sub ->
    prompt_ok text (Nested fileOrUrl parallel sub).

(** Every nested script of the event, at every depth, waited for the
    children it forked itself, once each, in the order of the forks. *)
#[warnings="-register-all"]
Inductive balanced_event : event -> Prop :=
| balanced_prompt text : balanced_event (Prompt text)
| balanced_running argList : balanced_event (Running argList)
| balanced_fork cp argList : balanced_event (Fork cp argList)
| balanced_wait cp code : balanced_event (Wait cp code)
| balanced_exit code : balanced_event (ExitCode code)
| balanced_nested fileOrUrl parallel sub :
    waits sub = forks sub ->
    Forall balanced_event sub ->
    balanced_event (Nested fileOrUrl parallel sub).

(** The own trace of a serial invocation: prompts, nested scripts, and
    commands each echoed, forked, waited for and reported in one go. *)
Inductive serial_shape : trace -> Prop :=
| shape_end : serial_shape []
| shape_prompt text t : serial_shape t -> serial_shape (Prompt text :: t)
| shape_nested fileOrUrl parallel sub t :
    serial_shape t -> serial_shape (Nested fileOrUrl parallel sub :: t)
| shape_command argList cp code t :
    serial_shape t ->
    serial_shape (Running argList :: Fork cp argList :: Wait cp code
                  :: ExitCode code :: t).

(** [int main() { process(std::cin); }]: the prompt and the mode are the
    default arguments of [process]. *)
Definition main {OS : Type} {sys : System OS} (fuel : nat)
           (cin : list string) : M OS unit :=
  process fuel cin "> " false.

(* ------------------------------------------------------------------ *)
(** ** What the system is asked, line by line *)

(** A run of command, blank and comment lines in serial mode, on the
    system: one block of events per line and the state of the system after
    the last line.  A command is forked with [forkNexec], waited for with
    [wait], and the code [wait] gave is the one reported. *)
Fixpoint serial_run {OS : Type} {sys : System OS} (prompt : string)
         (lines : list string) (os : OS) : list trace * OS :=
  match lines with
  | [] => ([], os)
  | line :: rest =>
      if skipped line then
        let '(blocks, os') := serial_run prompt rest os in
        ([Prompt prompt] :: blocks, os')
      else
        let '(cp, os1) := forkNexec (split line) os in
        let '(code, os2) := wait cp os1 in
        let '(blocks, os') := serial_run prompt rest os2 in
        ([Prompt prompt; Running (split line); Fork cp (split line);
          Wait cp code; ExitCode code] :: blocks, os')
  end.

(** The same run in parallel mode: a command is forked with [forkNexec]
    and its handle kept, in line order; nothing is waited for. *)
Fixpoint parallel_run {OS : Type} {sys : System OS} (prompt : string)
         (lines : list string) (os : OS)
  : list trace * ProcessList * OS :=
  match lines with
  | [] => ([], [], os)
  | line :: rest =>
      if skipped line then
        let '(blocks, handles, os') := parallel_run prompt rest os in
        ([Prompt prompt] :: blocks, handles, os')
      else
        let '(cp, os1) := forkNexec (split line) os in
        let '(blocks, handles, os') := parallel_run prompt rest os1 in
        ([Prompt prompt; Running (split line); Fork cp (split line)]
           :: blocks, cp :: handles, os')
  end.

(** The drain of a ProcessGroup on the system: each handle, in the order
    of the group, is waited for with [wait] and the code [wait] gave is
    reported right after. *)
Fixpoint drain_run {OS : Type} {sys : System OS} (childList : ProcessList)
         (os : OS) : trace * OS :=
  match childList with
  | [] => ([], os)
  | proc :: others =>
      let '(code, os1) := wait proc os in
      let '(t, os2) := drain_run others os1 in
      (Wait proc code :: ExitCode code :: t, os2)
  end.

(* ------------------------------------------------------------------ *)
(** ** One iteration of the loop, by kind of line *)

Section Steps.

Context {OS : Type} {sys : System OS}.
Variable processScript : string -> bool -> M OS unit.

Lemma bind_prepend {A B} (m : M OS A) (k : A -> M OS B) os a t os1 :
  m os = (Ok a, t, os1) -> bind m k os = prepend t (k a os1).
Proof.
  intros E. unfold bind, prepend. rewrite E. reflexivity.
Qed.

Lemma prepend_prepend {A} t1 t2 (x : result A * trace * OS) :
  prepend t1 (prepend t2 x) = prepend (t1 ++ t2) x.
Proof.
  destruct x as [[r t] os]. unfold prepend. now rewrite app_assoc.
Qed.

Lemma prepend_nil {A} (x : result A * trace * OS) : prepend [] x = x.
Proof. now destruct x as [[r t] os]. Qed.

Lemma skipped_not_exit line : skipped line = true -> (line =? "exit")%string = false.
Proof.
  destruct line as [|c line]; [reflexivity|].
  unfold skipped. cbn [Str.empty Str.starts_with_char orb].
  intros E. apply Ascii.eqb_eq in E. subst c. reflexivity.
Qed.

Lemma loop_end prompt parallel childList os :
  loop processScript [] prompt parallel childList os
  = (Ok childList, [Prompt prompt], os).
Proof. reflexivity. Qed.

Lemma loop_exit rest prompt parallel childList os :
  loop processScript ("exit" :: rest) prompt parallel childList os
  = (Ok childList, [Prompt prompt], os).
Proof. reflexivity. Qed.

Lemma loop_skipped line rest prompt parallel childList os :
  skipped line = true ->
  loop processScript (line :: rest) prompt parallel childList os
  = prepend [Prompt prompt]
      (loop processScript rest prompt parallel childList os).
Proof.
  intros Hs. cbn [loop].
  erewrite bind_prepend by reflexivity.
  rewrite (skipped_not_exit _ Hs), Hs. reflexivity.
Qed.

Lemma generic_inv line :
  generic line = true ->
  (line =? "exit")%string = false /\ skipped line = false /\
  exists verb more, split line = verb :: more /\
    ((verb =? "SERIAL") || (verb =? "PARALLEL"))%string = false.
Proof.
  unfold generic. intros H.
  apply andb_prop in H as [H H3]. apply andb_prop in H as [H1 H2].
  apply negb_true_iff in H1, H2.
  destruct (split line) as [|verb more]; [discriminate|].
  apply negb_true_iff in H3. eauto 6.
Qed.

Lemma loop_generic_serial line rest prompt childList os :
  generic line = true ->
  loop processScript (line :: rest) prompt false childList os
  = let '(cp, os1) := forkNexec (split line) os in
    let '(code, os2) := wait cp os1 in
    prepend [Prompt prompt; Running (split line); Fork cp (split line);
           Wait cp code; ExitCode code]
      (loop processScript rest prompt false childList os2).
Proof.
  intros Hg. destruct (generic_inv _ Hg) as (He & Hs & verb & more & Hsp & Hv).
  cbn [loop]. rewrite Hsp, He, Hs.
  unfold at_index, runCommand, report, do_fork, do_wait, bind, emit, ret,
    prepend.
  cbn [nth_error]. rewrite Hv.
  destruct (forkNexec (verb :: more) os) as [cp os1]. cbn.
  destruct (wait cp os1) as [code os2]. cbn.
  destruct (loop processScript rest prompt false childList os2) as [[r t] os3].
  reflexivity.
Qed.

Lemma loop_generic_parallel line rest prompt childList os :
  generic line = true ->
  loop processScript (line :: rest) prompt true childList os
  = let '(cp, os1) := forkNexec (split line) os in
    prepend [Prompt prompt; Running (split line); Fork cp (split line)]
      (loop processScript rest prompt true (childList ++ [cp]) os1).
Proof.
  intros Hg. destruct (generic_inv _ Hg) as (He & Hs & verb & more & Hsp & Hv).
  cbn [loop]. rewrite Hsp, He, Hs.
  unfold at_index, runCommand, do_fork, bind, emit, ret, prepend.
  cbn [nth_error]. rewrite Hv.
  destruct (forkNexec (verb :: more) os) as [cp os1]. cbn.
  destruct (loop processScript rest prompt true (childList ++ [cp]) os1)
    as [[r t] os3].
  reflexivity.
Qed.

End Steps.

(* ------------------------------------------------------------------ *)
(** ** Serial mode *)

Section Serial.

Context {OS : Type} {sys : System OS}.

Notation "x <- m ;; k" := (bind m (fun x => k))
  (at level 61, m at next level, right associativity).

Lemma bind_prepend_run {A B} (m m' : M OS A) (k : A -> M OS B) os os' t :
  m os = prepend t (m' os') ->
  bind m k os = prepend t (bind m' k os').
Proof.
  unfold bind, prepend. intros E. rewrite E.
  destruct (m' os') as [[[a|f] t'] os'']; [|reflexivity].
  destruct (k a os'') as [[r2 t2] os2]. now rewrite app_assoc.
Qed.

Lemma generic_not_skipped line : generic line = true -> skipped line = false.
Proof. intros H. now destruct (generic_inv _ H) as (_ & Hs & _). Qed.

Lemma loop_serial_commands (ps : string -> bool -> M OS unit) lines rest
      prompt childList :
  Forall (fun line => generic line = true \/ skipped line = true) lines ->
  forall os, exists blocks os',
    loop ps (lines ++ rest) prompt false childList os
    = prepend (List.concat blocks) (loop ps rest prompt false childList os')
    /\ Forall2 (serial_block prompt) lines blocks
    /\ echoes (List.concat blocks) = map split (filter generic lines)
    /\ List.length (reports (List.concat blocks))
       = List.length (filter generic lines).
Proof.
  induction 1 as [|line lines Hline _ IH]; intros os.
  - exists [], os. cbn [app List.concat]. rewrite prepend_nil. repeat split.
    constructor.
  - cbn [app filter]. destruct (skipped line) eqn:Hs.
    + destruct (IH os) as (blocks & os' & E & HB & He & Hr).
      exists ([Prompt prompt] :: blocks), os'.
      rewrite (loop_skipped _ _ _ _ _ _ _ Hs), E, prepend_prepend.
      assert (Hg : generic line = false).
      { destruct (generic line) eqn:G; [|reflexivity].
        apply generic_not_skipped in G. congruence. }
      rewrite Hg. repeat split; trivial.
      constructor; [|exact HB]. unfold serial_block. now rewrite Hs.
    + destruct Hline as [Hg|Hs']; [|congruence].
      rewrite (loop_generic_serial _ _ _ _ _ _ Hg), Hg.
      destruct (forkNexec (split line) os) as [cp os1].
      destruct (wait cp os1) as [code os2].
      destruct (IH os2) as (blocks & os' & E & HB & He & Hr).
      exists ([Prompt prompt; Running (split line); Fork cp (split line);
               Wait cp code; ExitCode code] :: blocks), os'.
      rewrite E, prepend_prepend. repeat split.
      * constructor; [|exact HB]. unfold serial_block. rewrite Hs. eauto.
      * cbn. now rewrite He.
      * cbn. now rewrite Hr.
Qed.

End Serial.

(* ------------------------------------------------------------------ *)
(** ** The loop, case by case *)

Section Cases.

Context {OS : Type} {sys : System OS}.
Variable ps : string -> bool -> M OS unit.

(** One iteration of [loop] with the monad unfolded. *)
Lemma loop_cases line rest prompt parallel childList os :
  loop ps (line :: rest) prompt parallel childList os
  = if (line =? "exit")%string then (Ok childList, [Prompt prompt], os)
    else if skipped line then
      prepend [Prompt prompt] (loop ps rest prompt parallel childList os)
    else
      match split line with
      | [] => (Stop (IndexOutOfRange 0), [Prompt prompt], os)
      | verb :: more =>
          if ((verb =? "SERIAL") || (verb =? "PARALLEL"))%string then
            match more with
            | [] => (Stop (IndexOutOfRange 1), [Prompt prompt], os)
            | ref :: _ =>
                let '(r, t, os1) := ps ref (verb =? "PARALLEL")%string os in
                match r with
                | Ok _ =>
                    prepend (Prompt prompt :: t)
                      (loop ps rest prompt parallel childList os1)
                | Stop f => (Stop f, Prompt prompt :: t, os1)
                end
            end
          else
            let '(cp, os1) := forkNexec (verb :: more) os in
            if parallel then
              prepend [Prompt prompt; Running (verb :: more);
                       Fork cp (verb :: more)]
                (loop ps rest prompt parallel (childList ++ [cp]) os1)
            else
              let '(code, os2) := wait cp os1 in
              prepend [Prompt prompt; Running (verb :: more);
                       Fork cp (verb :: more); Wait cp code; ExitCode code]
                (loop ps rest prompt parallel childList os2)
      end.
Proof.
  destruct (line =? "exit")%string eqn:He.
  { cbn [loop]. unfold bind, emit, ret. now rewrite He. }
  destruct (skipped line) eqn:Hs.
  { now apply loop_skipped. }
  destruct (split line) as [|verb more] eqn:Hsp.
  { cbn [loop]. unfold bind, emit, at_index, raise.
    now rewrite He, Hs, Hsp. }
  destruct ((verb =? "SERIAL") || (verb =? "PARALLEL"))%string eqn:Hv.
  - cbn [loop]. rewrite He, Hs, Hsp.
    unfold bind, emit, at_index, ret, raise, prepend. cbn [nth_error].
    rewrite Hv. destruct more as [|ref more]; [reflexivity|].
    destruct (ps ref (verb =? "PARALLEL")%string os) as [[[[]|f] t] os1];
      [|reflexivity].
    cbn. now destruct (loop ps rest prompt parallel childList os1) as [[r t'] os2].
  - assert (Hg : generic line = true).
    { unfold generic. now rewrite He, Hs, Hsp, Hv. }
    destruct parallel.
    + rewrite (loop_generic_parallel _ _ _ _ _ _ Hg), Hsp. reflexivity.
    + rewrite (loop_generic_serial _ _ _ _ _ _ Hg), Hsp. reflexivity.
Qed.

(** Nothing after the exit command takes part in the loop. *)
Lemma loop_stops_at_exit pre post prompt parallel :
  forall childList os,
    loop ps (pre ++ "exit" :: post) prompt parallel childList os
    = loop ps pre prompt parallel childList os.
Proof.
  induction pre as [|line pre IH]; intros childList os; cbn [app].
  - now rewrite loop_exit, loop_end.
  - rewrite !loop_cases.
    destruct (line =? "exit")%string; [reflexivity|].
    destruct (skipped line); [now rewrite IH|].
    destruct (split line) as [|verb more]; [reflexivity|].
    destruct ((verb =? "SERIAL") || (verb =? "PARALLEL"))%string.
    + destruct more as [|ref more]; [reflexivity|].
      destruct (ps ref (verb =? "PARALLEL")%string os) as [[[[]|f] t] os1];
        [now rewrite IH | reflexivity].
    + destruct (forkNexec (verb :: more) os) as [cp os1].
      destruct parallel; [now rewrite IH|].
      destruct (wait cp os1) as [code os2]. now rewrite IH.
Qed.

End Cases.

(* ------------------------------------------------------------------ *)
(** ** The ProcessGroup of an invocation *)

Lemma forks_app t1 t2 : forks (t1 ++ t2) = forks t1 ++ forks t2.
Proof.
  induction t1 as [|e t1 IH]; [reflexivity|].
  destruct e; cbn [app forks]; now rewrite IH.
Qed.

Lemma waits_app t1 t2 : waits (t1 ++ t2) = waits t1 ++ waits t2.
Proof.
  induction t1 as [|e t1 IH]; [reflexivity|].
  destruct e; cbn [app waits]; now rewrite IH.
Qed.

Lemma reports_app t1 t2 : reports (t1 ++ t2) = reports t1 ++ reports t2.
Proof.
  induction t1 as [|e t1 IH]; [reflexivity|].
  destruct e; cbn [app reports]; now rewrite IH.
Qed.

Section Group.

Context {OS : Type} {sys : System OS}.

Lemma nested_trace fileOrUrl parallel (m : M OS unit) os :
  exists r t os',
    nested fileOrUrl parallel m os = (r, [Nested fileOrUrl parallel t], os').
Proof. unfold nested. destruct (m os) as [[r t] os']. eauto. Qed.

Lemma processScript_enclosed fuel : enclosed (processScript fuel).
Proof.
  intros fileOrUrl parallel os. destruct fuel as [|fuel].
  - cbn. auto.
  - cbn [processScript].
    match goal with
    | |- context [nested ?f ?p ?m ?o] =>
        destruct (nested_trace f p m o) as (r & t & os' & E); rewrite E
    end.
    cbn. auto.
Qed.

Lemma keeps_group_prepend parallel childList childList0 t0
      (x : result ProcessList * trace * OS) :
  keeps_group parallel childList0 x ->
  (parallel = true -> waits t0 = [] /\ reports t0 = []) ->
  childList0 = childList ++ (if parallel then forks t0 else []) ->
  keeps_group parallel childList (prepend t0 x).
Proof.
  destruct x as [[r t] os]. unfold keeps_group, prepend.
  intros [Hq Hr] H0 ->. split.
  - intros Hp. destruct (Hq Hp) as [E3 E4], (H0 Hp) as [E1 E2].
    now rewrite waits_app, reports_app, E1, E2, E3, E4.
  - destruct r as [childList'|]; [|exact I]. subst childList'.
    destruct parallel; [now rewrite forks_app, app_assoc|].
    now rewrite !app_nil_r.
Qed.

Lemma loop_keeps_group ps prompt parallel :
  enclosed ps ->
  forall input childList os,
    keeps_group parallel childList
                (loop ps input prompt parallel childList os).
Proof.
  intros Hps. induction input as [|line rest IH]; intros childList os.
  - rewrite loop_end. cbn. split; [auto|].
    destruct parallel; now rewrite app_nil_r.
  - rewrite loop_cases.
    assert (Hstop : forall f t (os' : OS),
               waits t = [] -> reports t = [] ->
               keeps_group parallel childList (Stop f, t, os')).
    { intros. cbn. auto. }
    assert (Hsame : childList = childList ++ (if parallel then [] else [])).
    { destruct parallel; now rewrite app_nil_r. }
    destruct (line =? "exit")%string.
    { cbn. auto. }
    destruct (skipped line).
    { eapply keeps_group_prepend; [apply IH|auto|exact Hsame]. }
    destruct (split line) as [|verb more]; [now apply Hstop|].
    destruct ((verb =? "SERIAL") || (verb =? "PARALLEL"))%string.
    + destruct more as [|ref more]; [now apply Hstop|].
      specialize (Hps ref (verb =? "PARALLEL")%string os).
      destruct (ps ref (verb =? "PARALLEL")%string os) as [[[[]|f] t] os1];
        destruct Hps as (Hf & Hw & Hr).
      * eapply keeps_group_prepend;
          [apply IH|cbn; auto|cbn; rewrite Hf; exact Hsame].
      * now apply Hstop.
    + destruct (forkNexec (verb :: more) os) as [cp os1].
      destruct parallel.
      * eapply keeps_group_prepend; [apply IH|cbn; auto|reflexivity].
      * destruct (wait cp os1) as [code os2].
        eapply keeps_group_prepend;
          [apply IH|discriminate|now rewrite app_nil_r].
Qed.

Lemma drain_trace childList :
  forall os, exists codes os',
    List.length codes = List.length childList
    /\ drain (OS := OS) childList os
       = (Ok tt, drained childList codes, os').
Proof.
  induction childList as [|proc others IH]; intros os.
  - exists [], os. split; reflexivity.
  - cbn [drain]. unfold report, do_wait, emit, bind.
    destruct (wait proc os) as [code os1]. cbn.
    destruct (IH os1) as (codes & os' & Hlen & ->).
    exists (code :: codes), os'. split; [cbn; now rewrite Hlen|reflexivity].
Qed.

Lemma waits_drained childList :
  forall codes, List.length codes = List.length childList ->
                waits (drained childList codes) = childList.
Proof.
  induction childList as [|proc others IH]; intros [|code codes] H;
    try discriminate; [reflexivity|].
  cbn. f_equal. apply IH. now injection H.
Qed.

(** A parallel script made of commands runs to its end: one echo and one
    fork per command, in line order, then the drain of those forks. *)
Lemma loop_parallel_commands (ps : string -> bool -> M OS unit) lines rest
      prompt :
  Forall (fun line => generic line = true \/ skipped line = true) lines ->
  forall childList os, exists blocks os',
    loop ps (lines ++ rest) prompt true childList os
    = prepend (List.concat blocks)
        (loop ps rest prompt true
              (childList ++ forks (List.concat blocks)) os')
    /\ Forall2 (parallel_block prompt) lines blocks
    /\ echoes (List.concat blocks) = map split (filter generic lines)
    /\ List.length (forks (List.concat blocks))
       = List.length (filter generic lines).
Proof.
  induction 1 as [|line lines Hline _ IH]; intros childList os.
  - exists [], os. cbn [app List.concat forks].
    rewrite prepend_nil, app_nil_r. repeat split. constructor.
  - cbn [app filter]. destruct (skipped line) eqn:Hs.
    + destruct (IH childList os) as (blocks & os' & E & HB & He & Hf).
      exists ([Prompt prompt] :: blocks), os'.
      rewrite (loop_skipped _ _ _ _ _ _ _ Hs), E, prepend_prepend.
      assert (Hg : generic line = false).
      { destruct (generic line) eqn:G; [|reflexivity].
        destruct (generic_inv _ G) as (_ & Hs' & _). congruence. }
      rewrite Hg. repeat split; trivial.
      constructor; [|exact HB]. unfold parallel_block. now rewrite Hs.
    + destruct Hline as [Hg|Hs']; [|congruence].
      rewrite (loop_generic_parallel _ _ _ _ _ _ Hg), Hg.
      destruct (forkNexec (split line) os) as [cp os1].
      destruct (IH (childList ++ [cp]) os1) as (blocks & os' & E & HB & He & Hf).
      exists ([Prompt prompt; Running (split line); Fork cp (split line)]
                :: blocks), os'.
      rewrite E, prepend_prepend. repeat split.
      * cbn. now rewrite <- app_assoc.
      * constructor; [|exact HB]. unfold parallel_block. rewrite Hs. eauto.
      * cbn. now rewrite He.
      * cbn. now rewrite Hf.
Qed.

Lemma parallel_commands_complete fuel lines prompt os :
  Forall (fun line => generic line = true \/ skipped line = true) lines ->
  exists blocks codes os',
    process fuel lines prompt true os
    = (Ok tt,
       List.concat blocks ++ [Prompt prompt]
       ++ drained (forks (List.concat blocks)) codes, os')
    /\ Forall2 (parallel_block prompt) lines blocks
    /\ List.length codes = List.length (filter generic lines).
Proof.
  intros H.
  destruct (loop_parallel_commands (processScript fuel) lines [] prompt H [] os)
    as (blocks & os1 & E & HB & _ & Hf).
  rewrite app_nil_r in E. cbn [app] in E. rewrite loop_end in E.
  destruct (drain_trace (forks (List.concat blocks)) os1)
    as (codes & os' & Hlen & Hd).
  exists blocks, codes, os'. repeat split; [|exact HB|congruence].
  unfold process, process_with, bind. rewrite E. cbn. rewrite Hd.
  now rewrite <- app_assoc.
Qed.

End Group.

(* ------------------------------------------------------------------ *)
(** ** Serial mode, parallel mode and exit, on the system *)

Section Runs.

Context {OS : Type} {sys : System OS}.

(** The loop on a script that ends normally and holds no exit line goes
    on, when more lines follow, from the group and the state it ended
    with: only its last prompt, the one of the read that failed, becomes
    the prompt of the next line. *)
Lemma loop_app (ps : string -> bool -> M OS unit) pre rest prompt parallel :
  Forall (fun l => (l =? "exit")%string = false) pre ->
  forall childList os group t os1,
    loop ps pre prompt parallel childList os = (Ok group, t, os1) ->
    exists t1,
      t = t1 ++ [Prompt prompt]
      /\ loop ps (pre ++ rest) prompt parallel childList os
         = prepend t1 (loop ps rest prompt parallel group os1).
Proof.
  induction 1 as [|line pre He _ IH]; intros childList os group t os1 E.
  - rewrite loop_end in E. injection E as <- <- <-.
    exists []. split; [reflexivity|]. cbn [app]. now rewrite prepend_nil.
  - assert (Hpre : forall t0 childList0 os0,
               prepend t0 (loop ps pre prompt parallel childList0 os0)
               = (Ok group, t, os1) ->
               exists t1,
                 t = t1 ++ [Prompt prompt]
                 /\ prepend t0
                      (loop ps (pre ++ rest) prompt parallel childList0 os0)
                    = prepend t1 (loop ps rest prompt parallel group os1)).
    { intros t0 childList0 os0 E0.
      destruct (loop ps pre prompt parallel childList0 os0)
        as [[r t'] os'] eqn:El.
      cbn in E0. injection E0 as -> <- ->.
      destruct (IH _ _ _ _ _ El) as (t1 & -> & ->).
      exists (t0 ++ t1). split; [now rewrite app_assoc|].
      now rewrite prepend_prepend. }
    cbn [app]. rewrite loop_cases in E |- *. rewrite He in E |- *.
    destruct (skipped line); [now apply Hpre|].
    destruct (split line) as [|verb more]; [discriminate E|].
    destruct ((verb =? "SERIAL") || (verb =? "PARALLEL"))%string.
    + destruct more as [|ref more]; [discriminate E|].
      destruct (ps ref (verb =? "PARALLEL")%string os) as [[[[]|f] t0] os0];
        [now apply Hpre|discriminate E].
    + destruct (forkNexec (verb :: more) os) as [cp os0].
      destruct parallel; [now apply Hpre|].
      destruct (wait cp os0) as [code os2]. now apply Hpre.
Qed.

Lemma drain_as_run childList :
  forall os : OS,
    drain childList os
    = let '(dt, os') := drain_run childList os in (Ok tt, dt, os').
Proof.
  induction childList as [|proc others IH]; intros os; [reflexivity|].
  cbn [drain drain_run]. unfold report, do_wait, emit, bind.
  destruct (wait proc os) as [code os1]. cbn. rewrite IH.
  now destruct (drain_run others os1) as [t os2].
Qed.

Lemma drain_run_spec childList :
  forall os : OS,
    let '(dt, _) := drain_run childList os in
    waits dt = childList
    /\ forks dt = []
    /\ dt = drained childList (reports dt)
    /\ List.length (reports dt) = List.length childList.
Proof.
  induction childList as [|proc others IH]; intros os; [now cbn|].
  cbn [drain_run]. destruct (wait proc os) as [code os1].
  specialize (IH os1). destruct (drain_run others os1) as [t os2].
  destruct IH as (Hw & Hf & Hd & Hl).
  split; [cbn [waits]; now rewrite Hw|].
  split; [exact Hf|].
  split; [|cbn [reports List.length]; now rewrite Hl].
  cbn [reports].
  change (drained (proc :: others) (code :: reports t))
    with (Wait proc code :: ExitCode code :: drained others (reports t)).
  now rewrite <- Hd.
Qed.

Lemma loop_serial_run (ps : string -> bool -> M OS unit) lines rest prompt
      childList :
  Forall (fun line => generic line = true \/ skipped line = true) lines ->
  forall os,
    let '(blocks, os2) := serial_run prompt lines os in
    loop ps (lines ++ rest) prompt false childList os
    = prepend (List.concat blocks) (loop ps rest prompt false childList os2)
    /\ Forall2 (serial_block prompt) lines blocks
    /\ echoes (List.concat blocks) = map split (filter generic lines)
    /\ List.length (reports (List.concat blocks))
       = List.length (filter generic lines).
Proof.
  induction 1 as [|line lines Hline _ IH]; intros os.
  - cbn [serial_run app List.concat]. rewrite prepend_nil. repeat split.
    constructor.
  - cbn [serial_run app filter]. destruct (skipped line) eqn:Hs.
    + specialize (IH os).
      destruct (serial_run prompt lines os) as [blocks os2].
      destruct IH as (E & HB & He & Hr).
      rewrite (loop_skipped _ _ _ _ _ _ _ Hs), E, prepend_prepend.
      assert (Hg : generic line = false).
      { destruct (generic line) eqn:G; [|reflexivity].
        apply generic_not_skipped in G. congruence. }
      rewrite Hg. repeat split; trivial.
      constructor; [|exact HB]. unfold serial_block. now rewrite Hs.
    + destruct Hline as [Hg|Hs']; [|congruence].
      rewrite (loop_generic_serial _ _ _ _ _ _ Hg), Hg.
      destruct (forkNexec (split line) os) as [cp os1].
      destruct (wait cp os1) as [code os2].
      specialize (IH os2).
      destruct (serial_run prompt lines os2) as [blocks os3].
      destruct IH as (E & HB & He & Hr).
      rewrite E, prepend_prepend. repeat split.
      * constructor; [|exact HB]. unfold serial_block. rewrite Hs. eauto.
      * cbn. now rewrite He.
      * cbn. now rewrite Hr.
Qed.

Lemma loop_parallel_run (ps : string -> bool -> M OS unit) lines rest prompt :
  Forall (fun line => generic line = true \/ skipped line = true) lines ->
  forall childList os,
    let '(blocks, handles, os2) := parallel_run prompt lines os in
    loop ps (lines ++ rest) prompt true childList os
    = prepend (List.concat blocks)
        (loop ps rest prompt true (childList ++ handles) os2)
    /\ Forall2 (parallel_block prompt) lines blocks
    /\ echoes (List.concat blocks) = map split (filter generic lines)
    /\ forks (List.concat blocks) = handles
    /\ List.length handles = List.length (filter generic lines)
    /\ waits (List.concat blocks) = []
    /\ reports (List.concat blocks) = [].
Proof.
  induction 1 as [|line lines Hline _ IH]; intros childList os.
  - cbn [parallel_run app List.concat]. rewrite prepend_nil, app_nil_r.
    repeat split. constructor.
  - cbn [parallel_run app filter]. destruct (skipped line) eqn:Hs.
    + specialize (IH childList os).
      destruct (parallel_run prompt lines os) as [[blocks handles] os2].
      destruct IH as (E & HB & He & Hf & Hl & Hw & Hr).
      rewrite (loop_skipped _ _ _ _ _ _ _ Hs), E, prepend_prepend.
      assert (Hg : generic line = false).
      { destruct (generic line) eqn:G; [|reflexivity].
        destruct (generic_inv _ G) as (_ & Hs' & _). congruence. }
      rewrite Hg. repeat split; trivial.
      constructor; [|exact HB]. unfold parallel_block. now rewrite Hs.
    + destruct Hline as [Hg|Hs']; [|congruence].
      rewrite (loop_generic_parallel _ _ _ _ _ _ Hg), Hg.
      destruct (forkNexec (split line) os) as [cp os1].
      specialize (IH (childList ++ [cp]) os1).
      destruct (parallel_run prompt lines os1) as [[blocks handles] os2].
      destruct IH as (E & HB & He & Hf & Hl & Hw & Hr).
      rewrite E, prepend_prepend, <- app_assoc. repeat split.
      * constructor; [|exact HB]. unfold parallel_block. rewrite Hs. eauto.
      * cbn. now rewrite He.
      * cbn. now rewrite Hf.
      * cbn. now rewrite Hl.
      * exact Hw.
      * exact Hr.
Qed.

(** C1. In serial mode a run of command lines (blank and comment lines
    may sit among them) is processed line by line on the system: each
    command is echoed, forked with [forkNexec], waited for with [wait] and
    the exit code [wait] gave reported, all before the prompt of the next
    line.  The trace is one block per line, in line order; N commands
    give N echoes and N reports; the lines after the run are processed
    from the state the last wait left.  This holds for a run at the head
    of a script and for a run at whatever point of a script the loop has
    come to, after any lines, composite ones included, that ended
    normally. *)
Theorem serial_commands_reported_in_line_order :
  forall fuel lines rest prompt,
    Forall (fun line => generic line = true \/ skipped line = true) lines ->
    (forall os : OS,
        let '(blocks, os2) := serial_run prompt lines os in
        process fuel (lines ++ rest) prompt false os
        = prepend (List.concat blocks) (process fuel rest prompt false os2)
        /\ Forall2 (serial_block prompt) lines blocks
        /\ echoes (List.concat blocks) = map split (filter generic lines)
        /\ List.length (reports (List.concat blocks))
           = List.length (filter generic lines))
    /\ (forall pre (os : OS) group t1 os1,
           Forall (fun l => (l =? "exit")%string = false) pre ->
           loop (processScript fuel) pre prompt false [] os
           = (Ok group, t1 ++ [Prompt prompt], os1) ->
           let '(blocks, os2) := serial_run prompt lines os1 in
           process fuel (pre ++ lines ++ rest) prompt false os
           = prepend (t1 ++ List.concat blocks)
               (process fuel rest prompt false os2)).
Proof.
  intros fuel lines rest prompt Hlines. split.
  - intros os.
    pose proof (loop_serial_run (processScript fuel) lines rest prompt []
                  Hlines os) as Hrun.
    destruct (serial_run prompt lines os) as [blocks os2].
    destruct Hrun as (E & HB & He & Hr).
    repeat split; trivial.
    unfold process, process_with. now apply bind_prepend_run.
  - intros pre os group t1 os1 Hpre Eloop.
    pose proof (loop_keeps_group (processScript fuel) prompt false
                  (processScript_enclosed fuel) pre [] os) as Hgroup.
    rewrite Eloop in Hgroup. destruct Hgroup as [_ Hgroup].
    cbn [app] in Hgroup. subst group.
    destruct (loop_app (processScript fuel) pre (lines ++ rest) prompt false
                       Hpre _ _ _ _ _ Eloop) as (t1' & Ht & Eapp).
    apply app_inj_tail in Ht as [<- _].
    pose proof (loop_serial_run (processScript fuel) lines rest prompt []
                  Hlines os1) as Hrun.
    destruct (serial_run prompt lines os1) as [blocks os2].
    destruct Hrun as (E & _).
    unfold process, process_with. apply bind_prepend_run.
    now rewrite Eapp, E, prepend_prepend.
Qed.

(** C2. In parallel mode a run of command lines is processed on the
    system with no wait: each command is echoed and forked with
    [forkNexec], and its handle is appended to the ProcessGroup of the
    invocation at once, in line order, so that N commands add N handles;
    this holds from any group and state, and at whatever point of a
    script the loop has come to after lines that ended normally.  The
    loop of any invocation, on any input and from any state, emits no
    wait and no report of its own, and the group it ends with is the
    group it started with followed by the handles of its own forks.  When
    the loop has ended, [process] drains the group on the system: each
    handle, in the order it was added, is waited for once with [wait] and
    the code [wait] gave is reported right after.  A run that stops with
    a fault stops before the drain. *)
Theorem parallel_handles_drained_in_spawn_order :
  forall fuel lines rest prompt,
    Forall (fun line => generic line = true \/ skipped line = true) lines ->
    (forall childList (os : OS),
        let '(blocks, handles, os2) := parallel_run prompt lines os in
        loop (processScript fuel) (lines ++ rest) prompt true childList os
        = prepend (List.concat blocks)
            (loop (processScript fuel) rest prompt true
                  (childList ++ handles) os2)
        /\ Forall2 (parallel_block prompt) lines blocks
        /\ echoes (List.concat blocks) = map split (filter generic lines)
        /\ forks (List.concat blocks) = handles
        /\ List.length handles = List.length (filter generic lines)
        /\ waits (List.concat blocks) = []
        /\ reports (List.concat blocks) = [])
    /\ (forall pre (os : OS) group t1 os1,
           Forall (fun l => (l =? "exit")%string = false) pre ->
           loop (processScript fuel) pre prompt true [] os
           = (Ok group, t1 ++ [Prompt prompt], os1) ->
           let '(blocks, handles, os2) := parallel_run prompt lines os1 in
           loop (processScript fuel) (pre ++ lines ++ rest) prompt true [] os
           = prepend (t1 ++ List.concat blocks)
               (loop (processScript fuel) rest prompt true
                     (group ++ handles) os2))
    /\ (forall input' (os' : OS) childList,
           let '(r, t, _) :=
             loop (processScript fuel) input' prompt true childList os' in
           waits t = [] /\ reports t = [] /\
           match r with
           | Ok childList' => childList' = childList ++ forks t
           | Stop _ => True
           end)
    /\ (forall input' (os' : OS),
           let '(r, t, os3) :=
             loop (processScript fuel) input' prompt true [] os' in
           match r with
           | Ok childList =>
               childList = forks t /\
               let '(dt, os4) := drain_run childList os3 in
               process fuel input' prompt true os' = (Ok tt, t ++ dt, os4)
               /\ waits (t ++ dt) = forks t
               /\ dt = drained childList (reports dt)
               /\ List.length (reports dt) = List.length childList
           | Stop f => process fuel input' prompt true os' = (Stop f, t, os3)
           end).
Proof.
  intros fuel lines rest prompt Hlines.
  split; [|split; [|split]].
  - intros childList os.
    apply (loop_parallel_run (processScript fuel) lines rest prompt Hlines).
  - intros pre os group t1 os1 Hpre Eloop.
    destruct (loop_app (processScript fuel) pre (lines ++ rest) prompt true
                       Hpre _ _ _ _ _ Eloop) as (t1' & Ht & Eapp).
    apply app_inj_tail in Ht as [<- _].
    pose proof (loop_parallel_run (processScript fuel) lines rest prompt
                  Hlines group os1) as Hrun.
    destruct (parallel_run prompt lines os1) as [[blocks handles] os2].
    destruct Hrun as (E & _).
    now rewrite Eapp, E, prepend_prepend.
  - intros input' os' childList.
    pose proof (loop_keeps_group (processScript fuel) prompt true
                  (processScript_enclosed fuel) input' childList os') as H.
    destruct (loop (processScript fuel) input' prompt true childList os')
      as [[r t] os3].
    destruct H as [Hq Hr]. destruct (Hq eq_refl). auto.
  - intros input' os'.
    pose proof (loop_keeps_group (processScript fuel) prompt true
                  (processScript_enclosed fuel) input' [] os') as H.
    unfold process, process_with, bind.
    destruct (loop (processScript fuel) input' prompt true [] os')
      as [[[childList|f] t] os3]; [|reflexivity].
    destruct H as [Hq Hr]. destruct (Hq eq_refl) as [Hw _].
    cbn in Hr. split; [exact Hr|].
    rewrite drain_as_run. pose proof (drain_run_spec childList os3) as Hd.
    destruct (drain_run childList os3) as [dt os4].
    destruct Hd as (Hdw & _ & Hdd & Hdl).
    repeat split; trivial.
    rewrite waits_app, Hw, Hdw. now cbn.
Qed.

(** C10. The line "exit" ends the loop of the invocation that reads it:
    the loop returns at once with the ProcessGroup as it stands and no
    event but the prompt, so the line is neither split nor run and the
    lines after it are not read.  [process] then drains, on the system,
    the group that the lines before it built: each handle of the group,
    in order, is waited for with [wait] and its exit code reported; in
    parallel mode the group holds every child the invocation forked, in
    serial mode it is empty.  Only a fault in the lines before the exit
    line keeps the drain from happening. *)
Theorem exit_ends_loop_then_drain :
  forall fuel pre post prompt parallel (os : OS),
    (forall childList os',
        loop (processScript fuel) ("exit" :: post) prompt parallel
             childList os'
        = (Ok childList, [Prompt prompt], os'))
    /\ loop (processScript fuel) (pre ++ "exit" :: post) prompt parallel [] os
       = loop (processScript fuel) pre prompt parallel [] os
    /\ process fuel (pre ++ "exit" :: post) prompt parallel os
       = bind (loop (processScript fuel) pre prompt parallel []) drain os
    /\ let '(r, t, os1) :=
         loop (processScript fuel) pre prompt parallel [] os in
       match r with
       | Ok childList =>
           childList = (if parallel then forks t else [])
           /\ let '(dt, os2) := drain_run childList os1 in
              process fuel (pre ++ "exit" :: post) prompt parallel os
              = (Ok tt, t ++ dt, os2)
              /\ waits dt = childList
              /\ dt = drained childList (reports dt)
              /\ List.length (reports dt) = List.length childList
       | Stop f =>
           process fuel (pre ++ "exit" :: post) prompt parallel os
           = (Stop f, t, os1)
       end.
Proof.
  intros fuel pre post prompt parallel os. split; [|split; [|split]].
  - intros childList os'. apply loop_exit.
  - apply loop_stops_at_exit.
  - unfold process, process_with, bind.
    now rewrite loop_stops_at_exit.
  - pose proof (loop_keeps_group (processScript fuel) prompt parallel
                  (processScript_enclosed fuel) pre [] os) as H.
    unfold process, process_with, bind. rewrite loop_stops_at_exit.
    destruct (loop (processScript fuel) pre prompt parallel [] os)
      as [[[childList|f] t] os1]; [|reflexivity].
    destruct H as [_ Hr]. cbn [app] in Hr. split; [exact Hr|].
    rewrite drain_as_run. pose proof (drain_run_spec childList os1) as Hd.
    destruct (drain_run childList os1) as [dt os2].
    destruct Hd as (Hdw & _ & Hdd & Hdl). now repeat split.
Qed.

End Runs.

(** A serial script of two commands, a blank line and a comment, then
    one more command; alone, and after a nested script. *)
Lemma serial_commands_reported_in_line_order_witness :
  (let '(blocks, os2) :=
     serial_run "> " ["ls"; ""; "# note"; cat_a_b] 0%nat in
   process 1 (["ls"; ""; "# note"; cat_a_b] ++ ["date"]) "> " false 0%nat
   = prepend (List.concat blocks) (process 1 ["date"] "> " false os2)
   /\ Forall2 (serial_block "> ") ["ls"; ""; "# note"; cat_a_b] blocks
   /\ echoes (List.concat blocks)
      = map split (filter generic ["ls"; ""; "# note"; cat_a_b])
   /\ List.length (reports (List.concat blocks))
      = List.length (filter generic ["ls"; ""; "# note"; cat_a_b]))
  /\ (let '(blocks, os2) :=
        serial_run "> " ["ls"; ""; "# note"; cat_a_b] 2%nat in
      process 1
              (["SERIAL leaf.sh"] ++ ["ls"; ""; "# note"; cat_a_b] ++ ["date"])
              "> " false 0%nat
      = prepend
          ([Prompt "> ";
            Nested "leaf.sh" false
              [Prompt ""; Running ["echo"; "b"]; Fork 100%nat ["echo"; "b"];
               Wait 100%nat 1; ExitCode 1;
               Prompt ""; Running ["echo"; "c"]; Fork 101%nat ["echo"; "c"];
               Wait 101%nat 2; ExitCode 2;
               Prompt ""]]
           ++ List.concat blocks)
          (process 1 ["date"] "> " false os2)).
Proof.
  assert (Hlines : Forall (fun line => generic line = true
                                       \/ skipped line = true)
                          ["ls"; ""; "# note"; cat_a_b]).
  { repeat (apply Forall_cons;
            [first [left; reflexivity | right; reflexivity]|]).
    apply Forall_nil. }
  destruct (serial_commands_reported_in_line_order (sys := Sim.sim)
              1 ["ls"; ""; "# note"; cat_a_b] ["date"] "> " Hlines)
    as [Hhead Hafter].
  split.
  - exact (Hhead 0%nat).
  - apply (Hafter ["SERIAL leaf.sh"] 0%nat []).
    + repeat constructor.
    + reflexivity.
Defined.

(** A parallel script of two commands and a comment, then the exit line;
    alone, and after a nested script. *)
Lemma parallel_handles_drained_in_spawn_order_witness :
  (let '(blocks, handles, os2) :=
     parallel_run "> " ["ls"; "# note"; "date"] 0%nat in
   loop (processScript 1) (["ls"; "# note"; "date"] ++ ["exit"; "never"])
        "> " true [] 0%nat
   = prepend (List.concat blocks)
       (loop (processScript 1) ["exit"; "never"] "> " true ([] ++ handles)
             os2)
   /\ Forall2 (parallel_block "> ") ["ls"; "# note"; "date"] blocks
   /\ echoes (List.concat blocks)
      = map split (filter generic ["ls"; "# note"; "date"])
   /\ forks (List.concat blocks) = handles
   /\ List.length handles
      = List.length (filter generic ["ls"; "# note"; "date"])
   /\ waits (List.concat blocks) = []
   /\ reports (List.concat blocks) = [])
  /\ (let '(blocks, handles, os2) :=
        parallel_run "> " ["ls"; "# note"; "date"] 2%nat in
      loop (processScript 1)
           (["SERIAL leaf.sh"] ++ ["ls"; "# note"; "date"]
                               ++ ["exit"; "never"])
           "> " true [] 0%nat
      = prepend
          ([Prompt "> ";
            Nested "leaf.sh" false
              [Prompt ""; Running ["echo"; "b"]; Fork 100%nat ["echo"; "b"];
               Wait 100%nat 1; ExitCode 1;
               Prompt ""; Running ["echo"; "c"]; Fork 101%nat ["echo"; "c"];
               Wait 101%nat 2; ExitCode 2;
               Prompt ""]]
           ++ List.concat blocks)
          (loop (processScript 1) ["exit"; "never"] "> " true ([] ++ handles)
                os2))
  /\ (let '(r, t, os3) :=
        loop (processScript 1) ["ls"; "# note"; "date"; "exit"; "never"]
             "> " true [] 0%nat in
      match r with
      | Ok childList =>
          childList = forks t /\
          let '(dt, os4) := drain_run childList os3 in
          process 1 ["ls"; "# note"; "date"; "exit"; "never"] "> " true 0%nat
          = (Ok tt, t ++ dt, os4)
          /\ waits (t ++ dt) = forks t
          /\ dt = drained childList (reports dt)
          /\ List.length (reports dt) = List.length childList
      | Stop f =>
          process 1 ["ls"; "# note"; "date"; "exit"; "never"] "> " true 0%nat
          = (Stop f, t, os3)
      end).
Proof.
  assert (Hlines : Forall (fun line => generic line = true
                                       \/ skipped line = true)
                          ["ls"; "# note"; "date"]).
  { repeat (apply Forall_cons;
            [first [left; reflexivity | right; reflexivity]|]).
    apply Forall_nil. }
  destruct (parallel_handles_drained_in_spawn_order (sys := Sim.sim)
              1 ["ls"; "# note"; "date"] ["exit"; "never"] "> " Hlines)
    as (Hhead & Hafter & _ & Hdrain).
  split; [|split].
  - exact (Hhead [] 0%nat).
  - apply (Hafter ["SERIAL leaf.sh"] 0%nat []).
    + repeat constructor.
    + reflexivity.
  - exact (Hdrain ["ls"; "# note"; "date"; "exit"; "never"] 0%nat).
Defined.

(* ------------------------------------------------------------------ *)
(** ** Composite verbs *)

Section Composite.

Context {OS : Type} {sys : System OS}.

Lemma processScript_S fuel fileOrUrl parallel os :
  processScript (S fuel) fileOrUrl parallel os
  = nested fileOrUrl parallel
      (bind (script_source fileOrUrl)
            (fun script => process fuel script "" parallel)) os.
Proof.
  cbn [processScript]. unfold script_source, process.
  now destruct (Str.find fileOrUrl "http://" 0 =? 0).
Qed.

(** C8. A line whose first word is SERIAL or PARALLEL runs the script
    named by its second word in the mode the verb names, whatever the
    mode of the invocation that reads the line: the nested invocation
    starts its loop with a ProcessGroup of its own, empty, and drains
    that group itself; the caller then goes on with its own group
    unchanged.  The group an invocation holds when its loop ends is made
    of the handles it forked itself (none in serial mode), never of
    those forked inside a nested script. *)
Theorem composite_verb_sets_mode_and_group_is_local :
  forall fuel line rest prompt parallel childList os verb ref more,
    (line =? "exit")%string = false ->
    skipped line = false ->
    split line = verb :: ref :: more ->
    verb = "SERIAL" \/ verb = "PARALLEL" ->
    let mode := (verb =? "PARALLEL")%string in
    (let '(r, sub, os1) :=
       bind (script_source ref)
            (fun script =>
               bind (loop (processScript fuel) script "" mode []) drain) os in
     loop (processScript (S fuel)) (line :: rest) prompt parallel childList os
     = match r with
       | Ok _ =>
           prepend [Prompt prompt; Nested ref mode sub]
             (loop (processScript (S fuel)) rest prompt parallel childList os1)
       | Stop f => (Stop f, [Prompt prompt; Nested ref mode sub], os1)
       end)
    /\ (forall fuel' input prompt' parallel' os',
           let '(r, t, _) :=
             loop (processScript fuel') input prompt' parallel' [] os' in
           match r with
           | Ok group => group = if parallel' then forks t else []
           | Stop _ => True
           end).
Proof.
  intros fuel line rest prompt parallel childList os verb ref more
         He Hs Hsp Hv mode.
  split.
  - rewrite loop_cases, He, Hs, Hsp.
    assert (Hc : ((verb =? "SERIAL") || (verb =? "PARALLEL"))%string = true)
      by (destruct Hv; subst verb; reflexivity).
    rewrite Hc, processScript_S. fold mode. unfold nested, process, process_with.
    destruct (bind (script_source ref)
                (fun script =>
                   bind (loop (processScript fuel) script "" mode [])
                        (fun childList0 => drain childList0)) os)
      as [[[[]|f] sub] os1] eqn:E;
      change (fun childList0 : ProcessList => drain childList0)
        with (drain (OS := OS)) in E; rewrite E; reflexivity.
  - intros fuel' input prompt' parallel' os'.
    pose proof (loop_keeps_group (processScript fuel') prompt' parallel'
                  (processScript_enclosed fuel') input [] os') as H.
    destruct (loop (processScript fuel') input prompt' parallel' [] os')
      as [[[group|f] t] os1]; [|exact I].
    now destruct H as [_ ->].
Qed.

End Composite.

(** A parallel script that reads "SERIAL leaf.sh": the two commands of
    leaf.sh run serially. *)
Lemma composite_verb_sets_mode_and_group_is_local_witness :
  let mode := ("SERIAL" =? "PARALLEL")%string in
  (let '(r, sub, os1) :=
     bind (script_source (sys := Sim.sim) "leaf.sh")
          (fun script =>
             bind (loop (processScript 0) script "" mode []) drain) 1%nat in
   loop (processScript (sys := Sim.sim) 1) ["SERIAL leaf.sh"; "date"] "> " true
        [100%nat] 1%nat
   = match r with
     | Ok _ =>
         prepend [Prompt "> "; Nested "leaf.sh" mode sub]
           (loop (processScript 1) ["date"] "> " true [100%nat] os1)
     | Stop f => (Stop f, [Prompt "> "; Nested "leaf.sh" mode sub], os1)
     end)
  /\ (forall fuel' input prompt' parallel' os',
         let '(r, t, _) :=
           loop (processScript (sys := Sim.sim) fuel') input prompt' parallel'
                [] os' in
         match r with
         | Ok group => group = if parallel' then forks t else []
         | Stop _ => True
         end).
Proof.
  apply (composite_verb_sets_mode_and_group_is_local (sys := Sim.sim)
           0 "SERIAL leaf.sh" ["date"] "> " true [100%nat] 1%nat
           "SERIAL" "leaf.sh" []).
  - reflexivity.
  - reflexivity.
  - reflexivity.
  - left. reflexivity.
Defined.

(* ------------------------------------------------------------------ *)
(** ** Blank lines and comments *)

Section Skipped.

Context {OS : Type} {sys : System OS}.

Lemma without_prompts_app t1 t2 :
  without_prompts (t1 ++ t2) = without_prompts t1 ++ without_prompts t2.
Proof. apply filter_app. Qed.

Lemma same_but_prompts_refl {A} (x : result A * trace * OS) :
  same_but_prompts x x.
Proof. destruct x as [[r t] os]. cbn. auto. Qed.

Lemma same_but_prompts_prepend {A} t (x y : result A * trace * OS) :
  same_but_prompts x y -> same_but_prompts (prepend t x) (prepend t y).
Proof.
  destruct x as [[r1 t1] os1], y as [[r2 t2] os2]. cbn.
  intros (-> & -> & E). rewrite !without_prompts_app, E. auto.
Qed.

Lemma same_but_prompts_one {A} text (x : result A * trace * OS) :
  same_but_prompts (prepend [Prompt text] x) x.
Proof. destruct x as [[r t] os]. cbn. auto. Qed.

Lemma same_but_prompts_bind {A B} (m1 m2 : M OS A) (k : A -> M OS B) os :
  same_but_prompts (m1 os) (m2 os) ->
  same_but_prompts (bind m1 k os) (bind m2 k os).
Proof.
  unfold bind.
  destruct (m1 os) as [[r1 t1] os1], (m2 os) as [[r2 t2] os2]. cbn.
  intros (-> & -> & E). destruct r2 as [a|f]; [|cbn; auto].
  destruct (k a os2) as [[r t] os3]. cbn.
  rewrite !without_prompts_app, E. auto.
Qed.

Lemma loop_without_skipped ps line pre post prompt parallel :
  skipped line = true ->
  forall childList os,
    same_but_prompts
      (loop ps (pre ++ line :: post) prompt parallel childList os)
      (loop (OS := OS) ps (pre ++ post) prompt parallel childList os).
Proof.
  intros Hs. induction pre as [|first pre IH]; intros childList os;
    cbn [app].
  - rewrite (loop_skipped _ _ _ _ _ _ _ Hs). apply same_but_prompts_one.
  - rewrite !loop_cases.
    destruct (first =? "exit")%string; [apply same_but_prompts_refl|].
    destruct (skipped first); [apply same_but_prompts_prepend, IH|].
    destruct (split first) as [|verb more]; [apply same_but_prompts_refl|].
    destruct ((verb =? "SERIAL") || (verb =? "PARALLEL"))%string.
    + destruct more as [|ref more]; [apply same_but_prompts_refl|].
      destruct (ps ref (verb =? "PARALLEL")%string os) as [[[[]|f] t] os1];
        [apply same_but_prompts_prepend, IH|apply same_but_prompts_refl].
    + destruct (forkNexec (verb :: more) os) as [cp os1].
      destruct parallel; [apply same_but_prompts_prepend, IH|].
      destruct (wait cp os1) as [code os2].
      apply same_but_prompts_prepend, IH.
Qed.

(** C9. An empty line and a line that begins with '#' are skipped in
    both modes: where the loop reads such a line it emits its prompt and
    goes on with the next line, the ProcessGroup and the operating
    system untouched; and a script with such a line anywhere in it runs
    as the script without the line does, one prompt apart: the same
    echoes, forks, waits and reports, the same end. *)
Theorem skipped_line_spawns_nothing :
  forall fuel pre line post prompt parallel childList os,
    skipped line = true ->
    loop (processScript fuel) (line :: post) prompt parallel childList os
    = prepend [Prompt prompt]
        (loop (processScript fuel) post prompt parallel childList os)
    /\ same_but_prompts
         (process fuel (pre ++ line :: post) prompt parallel os)
         (process fuel (pre ++ post) prompt parallel os).
Proof.
  intros fuel pre line post prompt parallel childList os Hs. split.
  - now apply loop_skipped.
  - unfold process, process_with.
    apply same_but_prompts_bind. now apply loop_without_skipped.
Qed.

End Skipped.

(** A comment between two commands of a parallel script. *)
Lemma skipped_line_spawns_nothing_witness :
  loop (processScript 0) ["# note"; "date"] "> " true [100%nat] 0%nat
  = prepend [Prompt "> "]
      (loop (processScript 0) ["date"] "> " true [100%nat] 0%nat)
  /\ same_but_prompts
       (process 0 (["ls"] ++ "# note" :: ["date"]) "> " true 0%nat)
       (process 0 (["ls"] ++ ["date"]) "> " true 0%nat).
Proof.
  apply (skipped_line_spawns_nothing (sys := Sim.sim)
           0 ["ls"] "# note" ["date"] "> " true [100%nat] 0%nat).
  reflexivity.
Defined.

(* ------------------------------------------------------------------ *)
(** ** Lines that reach the dispatcher without the words it indexes *)

Example split_quoted :
  split ("foo " ++ dquote ++ "bar baz" ++ dquote ++ " qux")%string
  = ["foo"; "bar baz"; "qux"].
Proof. reflexivity. Qed.

Example split_unterminated_quote :
  split ("ls " ++ dquote ++ "a b")%string = ["ls"].
Proof. reflexivity. Qed.

Section Dispatch.

Context {OS : Type} {sys : System OS}.

(** C3. A line made of one space is not empty, is not a comment and is
    not the exit command, so it passes the filter of the loop; [split]
    finds no word in it, and [argList[0]] is then an index past the end
    of an empty vector.  The same holds for a line made of one double
    quote, whose only word is never closed. *)
Theorem blank_line_reaches_dispatch_with_no_word :
  forall fuel prompt parallel (os : OS),
    (" " =? "exit")%string = false
    /\ skipped " " = false
    /\ split " " = []
    /\ process fuel [" "] prompt parallel os
       = (Stop (IndexOutOfRange 0), [Prompt prompt], os)
    /\ skipped dquote = false
    /\ split dquote = []
    /\ process fuel [dquote] prompt parallel os
       = (Stop (IndexOutOfRange 0), [Prompt prompt], os).
Proof.
  intros fuel prompt parallel os.
  unfold process, process_with, bind. rewrite !loop_cases.
  repeat split; reflexivity.
Qed.

(** C4. A line made of the word SERIAL (or PARALLEL) alone is split
    into one word; the loop recognises the verb and evaluates
    [argList[1]] with no test of the size of the vector: an index past
    its end. *)
Theorem composite_verb_alone_indexes_past_the_end :
  forall fuel prompt parallel (os : OS),
    split "SERIAL" = ["SERIAL"]
    /\ process fuel ["SERIAL"] prompt parallel os
       = (Stop (IndexOutOfRange 1), [Prompt prompt], os)
    /\ split "PARALLEL" = ["PARALLEL"]
    /\ process fuel ["PARALLEL"] prompt parallel os
       = (Stop (IndexOutOfRange 1), [Prompt prompt], os).
Proof.
  intros fuel prompt parallel os.
  unfold process, process_with, bind. rewrite !loop_cases.
  repeat split; reflexivity.
Qed.

End Dispatch.

(* ------------------------------------------------------------------ *)
(** ** URLs *)

(** C5. The two URLs of the documentation: an explicit port, and the
    default port "80" when the URL gives none. *)
Theorem breakDownURL_examples :
  breakDownURL "http://localhost:8080/a/b.txt"
  = Some ("localhost", "8080", "/a/b.txt")
  /\ breakDownURL "http://example.org/index.html"
     = Some ("example.org", "80", "/index.html").
Proof. split; vm_compute; reflexivity. Qed.

(** C6. In "http://example.org/a:b.txt" the path starts at index 18 and
    the first ':' after the host start is at index 20, inside the path.
    [breakDownURL] takes any ':' found after the host start for the port
    separator: the host runs up to that colon and the port is what follows
    it, not "80". *)
Theorem breakDownURL_colon_in_path :
  Str.find_char "http://example.org/a:b.txt" "/" 7 = 18
  /\ Str.find_char "http://example.org/a:b.txt" ":" 7 = 20
  /\ breakDownURL "http://example.org/a:b.txt"
     = Some ("example.org/a", "b.txt", "/a:b.txt").
Proof. repeat split; vm_compute; reflexivity. Qed.

(** *** Positions returned by [find] *)

Lemma find_from_range here s :
  forall i pos,
    let r := Str.find_from here s i pos in
    r = Str.npos \/ (i <= r <= i + Str.size s /\ pos <= r).
Proof.
  induction s as [|c s IH]; intros i pos; cbn [Str.find_from].
  - destruct (pos <=? i) eqn:E; cbn [andb]; [|now left].
    destruct (here ""); [|now left].
    right. apply Z.leb_le in E. unfold Str.size. cbn. lia.
  - destruct (pos <=? i) eqn:E; cbn [andb].
    + destruct (here (String c s)).
      * right. apply Z.leb_le in E. unfold Str.size. cbn [String.length]. lia.
      * destruct (IH (i + 1) pos) as [H|H]; [now left|right].
        unfold Str.size in *. cbn [String.length]. lia.
    + destruct (IH (i + 1) pos) as [H|H]; [now left|right].
      unfold Str.size in *. cbn [String.length]. lia.
Qed.

Lemma find_char_range s c pos :
  let r := Str.find_char s c pos in
  r = Str.npos \/ (pos <= r < Str.size s /\ 0 <= r).
Proof.
  unfold Str.find_char.
  assert (G : forall s i, 0 <= i ->
             let r := Str.find_from (Str.starts_with_char c) s i pos in
             r = Str.npos \/ (pos <= r < i + Str.size s /\ 0 <= r)).
  { clear s. induction s as [|d s IH]; intros i Hi; cbn [Str.find_from].
    - cbn [Str.starts_with_char]. rewrite andb_false_r. now left.
    - destruct ((pos <=? i) && Str.starts_with_char c (String d s)) eqn:E.
      + right. apply andb_prop in E as [E _]. apply Z.leb_le in E.
        unfold Str.size. cbn [String.length]. lia.
      + destruct (IH (i + 1) ltac:(lia)) as [H|H]; [now left|right].
        unfold Str.size in *. cbn [String.length]. lia. }
  cbn zeta. destruct (G s 0 ltac:(lia)) as [H|H]; [now left|right]. lia.
Qed.

Lemma find_zero_prefix s pat :
  Str.find s pat 0 = 0 -> String.prefix pat s = true.
Proof.
  unfold Str.find. destruct s as [|c s]; cbn [Str.find_from].
  - change (0 <=? 0) with true. cbn [andb].
    destruct (String.prefix pat ""); [reflexivity|discriminate].
  - change (0 <=? 0) with true. cbn [andb].
    destruct (String.prefix pat (String c s)); [reflexivity|].
    intros H.
    pose proof (find_from_range (String.prefix pat) s (0 + 1) 0) as R.
    cbn zeta in R. rewrite H in R. destruct R as [R|R]; [discriminate|lia].
Qed.

Lemma http_prefix_has_separator url :
  String.prefix "http://" url = true -> Str.find url "//" 0 = 5.
Proof.
  intros H.
  repeat (destruct url as [|? url]; [discriminate H|];
          cbn [String.prefix] in H;
          match type of H with
          | (if ?d then _ else _) = true =>
              destruct d as [<-|]; [|discriminate H]
          end).
  destruct url; reflexivity.
Qed.

(** A reference without "//" is never taken for a URL. *)
Lemma no_separator_is_local url :
  Str.find url "//" 0 = Str.npos -> (Str.find url "http://" 0 =? 0) = false.
Proof.
  intros H. apply Z.eqb_neq. intros E.
  apply find_zero_prefix, http_prefix_has_separator in E.
  rewrite E in H. discriminate.
Qed.

(** C7, as the code has it.  [breakDownURL] does not test the result of
    [find("//")]: without the separator the host start wraps around to
    index 1.  The call then throws [std::out_of_range] exactly when no
    "/" stands at index 1 or later; otherwise it returns a decomposition.
    [processScript] never passes such a reference to it: a reference
    without "//" does not begin with "http://" and is opened as a file. *)
Theorem breakDownURL_without_separator :
  forall url,
    Str.size url < Str.npos ->
    Str.find url "//" 0 = Str.npos ->
    (breakDownURL url = None <-> Str.find_char url "/" 1 = Str.npos)
    /\ (forall (OS : Type) (sys : System OS) fuel parallel (os : OS),
           processScript (S fuel) url parallel os
           = nested url parallel
               (bind (open_file url)
                     (fun script => process fuel script "" parallel)) os).
Proof.
  intros url Hsize Hfind. split.
  - unfold breakDownURL. rewrite Hfind.
    change (Str.wrap (Str.npos + 2)) with 1.
    pose proof (find_char_range url "/" 1) as Hpath.
    pose proof (find_char_range url ":" 1) as Hport.
    cbn zeta in Hpath, Hport.
    set (pathStart := Str.find_char url "/" 1) in *.
    set (portPos := Str.find_char url ":" 1) in *.
    unfold Str.substr.
    destruct Hpath as [Hpath|Hpath].
    + rewrite Hpath. split; [reflexivity|intros _].
      destruct (Str.size url <? 1); [reflexivity|].
      destruct (Z.ltb_spec (Str.size url) Str.npos); [reflexivity|lia].
    + assert (Hne : pathStart <> Str.npos) by lia.
      destruct (Z.ltb_spec (Str.size url) 1); [lia|].
      destruct (Z.ltb_spec (Str.size url) pathStart); [lia|].
      split; [|intros E; contradiction].
      destruct (Z.eqb_spec portPos Str.npos) as [E|E]; cbn [negb].
      * discriminate.
      * destruct Hport as [Hport|Hport]; [contradiction|].
        unfold Str.npos in Hsize.
        assert (Hw : Str.wrap (portPos + 1) = portPos + 1).
        { unfold Str.wrap. apply Z.mod_small. lia. }
        rewrite Hw.
        destruct (Z.ltb_spec (Str.size url) (portPos + 1)); [lia|].
        discriminate.
  - intros OS sys fuel parallel os.
    cbn [processScript]. rewrite (no_separator_is_local _ Hfind).
    reflexivity.
Qed.

Lemma breakDownURL_without_separator_witness :
  (breakDownURL "script.sh" = None
   <-> Str.find_char "script.sh" "/" 1 = Str.npos)
  /\ (forall (OS : Type) (sys : System OS) fuel parallel (os : OS),
         processScript (S fuel) "script.sh" parallel os
         = nested "script.sh" parallel
             (bind (open_file "script.sh")
                   (fun script => process fuel script "" parallel)) os).
Proof.
  apply (breakDownURL_without_separator "script.sh").
  - reflexivity.
  - reflexivity.
Defined.

(** The claim C7 as the specification words it fails: "abc/def" has no
    "//", and [breakDownURL] returns a host, the default port and a path
    for it. *)
Lemma breakDownURL_guesses_without_separator :
  Str.find "abc/def" "//" 0 = Str.npos
  /\ breakDownURL "abc/def" = Some ("bc", "80", "/def")
  /\ ~ (forall url, Str.find url "//" 0 = Str.npos -> breakDownURL url = None).
Proof.
  split; [reflexivity|]. split; [reflexivity|].
  intros H. specialize (H "abc/def" eq_refl). discriminate H.
Qed.

(* ------------------------------------------------------------------ *)
(** ** The bound on the iterations of [split] is never reached *)

Section SplitFuel.

Import Lexer.
Local Open Scope nat_scope.

Lemma skipws_length s : List.length (skipws s) <= List.length s.
Proof.
  induction s as [|c s IH]; cbn; [lia|].
  destruct (isspace c); cbn; lia.
Qed.

Lemma skipws_head s c s' : skipws s = c :: s' -> isspace c = false.
Proof.
  induction s as [|d s IH]; cbn; [discriminate|].
  destruct (isspace d) eqn:E; [exact IH|].
  intros H. injection H as <- _. exact E.
Qed.

Lemma read_word_length s :
  List.length (snd (read_word s)) <= List.length s.
Proof.
  induction s as [|c s IH]; cbn; [lia|].
  destruct (isspace c); cbn; [lia|].
  destruct (read_word s) as [w r]. cbn in *. lia.
Qed.

Lemma read_quoted_length n :
  forall s acc w r,
    List.length s <= n ->
    read_quoted s acc = Some (w, r) -> List.length r < List.length s.
Proof.
  induction n as [|n IH]; intros s acc w r Hn H.
  - destruct s; [discriminate H|cbn in Hn; lia].
  - destruct s as [|c s]; [discriminate H|]. cbn [read_quoted] in H.
    cbn [List.length] in *.
    destruct (Ascii.eqb c escape).
    + destruct s as [|d s]; [discriminate H|].
      cbn [List.length] in *.
      apply IH in H; lia.
    + destruct (Ascii.eqb c delim).
      * injection H as _ <-. lia.
      * apply IH in H; lia.
Qed.

Lemma extract_quoted_shorter s w r :
  extract_quoted s = Some (w, r) -> List.length r < List.length s.
Proof.
  unfold extract_quoted. pose proof (skipws_length s) as Hs.
  destruct (skipws s) as [|c s'] eqn:E; [discriminate|].
  cbn [List.length] in Hs.
  destruct (Ascii.eqb c delim).
  - intros H. apply (read_quoted_length _ _ _ _ _ (le_n _)) in H. lia.
  - intros H. apply skipws_head in E. cbn [read_word] in H.
    rewrite E in H. pose proof (read_word_length s') as Hr.
    destruct (read_word s') as [w' r'].
    injection H as _ <-. cbn [snd] in Hr. lia.
Qed.

Lemma split_loop_fuel n :
  forall m s argList,
    List.length s < n -> List.length s < m ->
    split_loop n s argList = split_loop m s argList.
Proof.
  induction n as [|n IH]; intros m s argList Hn Hm; [lia|].
  destruct m as [|m]; [lia|]. cbn [split_loop].
  destruct (extract_quoted s) as [[w r]|] eqn:E; [|reflexivity].
  apply extract_quoted_shorter in E. apply IH; lia.
Qed.

(** More iterations than [split] allows change nothing. *)
Lemma split_fuel_enough line n :
  String.length line < n ->
  split_loop n (list_ascii_of_string line) [] = split line.
Proof.
  intros H. unfold split.
  assert (E : List.length (list_ascii_of_string line) = String.length line).
  { clear H. induction line as [|c line IH]; cbn; [reflexivity|].
    now rewrite IH. }
  apply split_loop_fuel; rewrite E; lia.
Qed.

End SplitFuel.

(* ------------------------------------------------------------------ *)
(** ** Runs on the small operating system *)

Example run_serial :
  process 0 ["ls"; ""; "# note"; "date"; "exit"; "never"] "> " false 0%nat
  = (Ok tt,
     [Prompt "> "; Running ["ls"]; Fork 100%nat ["ls"]; Wait 100%nat 1;
      ExitCode 1;
      Prompt "> "; Prompt "> ";
      Prompt "> "; Running ["date"]; Fork 101%nat ["date"]; Wait 101%nat 2;
      ExitCode 2;
      Prompt "> "],
     2%nat).
Proof. reflexivity. Qed.

Example run_parallel :
  process 0 ["ls"; ""; "# note"; "date"; "exit"; "never"] "> " true 0%nat
  = (Ok tt,
     [Prompt "> "; Running ["ls"]; Fork 100%nat ["ls"];
      Prompt "> "; Prompt "> ";
      Prompt "> "; Running ["date"]; Fork 101%nat ["date"];
      Prompt "> ";
      Wait 100%nat 1; ExitCode 1; Wait 101%nat 2; ExitCode 2],
     2%nat).
Proof. reflexivity. Qed.

Example run_nested_serial_in_parallel :
  process 1 ["ls"; "SERIAL leaf.sh"; "date"] "> " true 0%nat
  = (Ok tt,
     [Prompt "> "; Running ["ls"]; Fork 100%nat ["ls"];
      Prompt "> ";
      Nested "leaf.sh" false
        [Prompt ""; Running ["echo"; "b"]; Fork 101%nat ["echo"; "b"];
         Wait 101%nat 2; ExitCode 2;
         Prompt ""; Running ["echo"; "c"]; Fork 102%nat ["echo"; "c"];
         Wait 102%nat 0; ExitCode 0;
         Prompt ""];
      Prompt "> "; Running ["date"]; Fork 103%nat ["date"];
      Prompt "> ";
      Wait 100%nat 1; ExitCode 1; Wait 103%nat 1; ExitCode 1],
     4%nat).
Proof. reflexivity. Qed.

Example run_remote_parallel_in_serial :
  process 1 ["PARALLEL http://host:8080/s.sh"; "date"] "> " false 0%nat
  = (Ok tt,
     [Prompt "> ";
      Nested "http://host:8080/s.sh" true
        [Prompt ""; Running ["ls"; "-l"]; Fork 100%nat ["ls"; "-l"];
         Prompt "";
         Wait 100%nat 1; ExitCode 1];
      Prompt "> "; Running ["date"]; Fork 101%nat ["date"]; Wait 101%nat 2;
      ExitCode 2;
      Prompt "> "],
     2%nat).
Proof. reflexivity. Qed.

Example run_url_without_path :
  process 1 ["SERIAL http://host"; "date"] "> " false 0%nat
  = (Stop StdOutOfRange, [Prompt "> "; Nested "http://host" false []], 0%nat).
Proof. reflexivity. Qed.

(* ------------------------------------------------------------------ *)
(** ** What [split] makes of a line *)

Section Words.

Import Lexer.

Lemma chars_app a b : chars (a ++ b)%string = chars a ++ chars b.
Proof.
  unfold chars. induction a as [|c a IH]; cbn; [reflexivity|].
  now rewrite IH.
Qed.

Lemma split_loop_acc n :
  forall s argList,
    split_loop n s argList = argList ++ split_loop n s [].
Proof.
  induction n as [|n IH]; intros s argList; cbn [split_loop].
  - now rewrite app_nil_r.
  - destruct (extract_quoted s) as [[w r]|]; [|now rewrite app_nil_r].
    rewrite (IH r (argList ++ _)), (IH r ([] ++ _)).
    now rewrite <- app_assoc.
Qed.

Lemma split_rest_chars line : split line = split_rest (chars line).
Proof. reflexivity. Qed.

Lemma split_rest_step s :
  split_rest s
  = match extract_quoted s with
    | Some (w, r) => string_of_list_ascii w :: split_rest r
    | None => []
    end.
Proof.
  unfold split_rest at 1. cbn [split_loop].
  destruct (extract_quoted s) as [[w r]|] eqn:E; [|reflexivity].
  apply extract_quoted_shorter in E.
  rewrite split_loop_acc. cbn [app]. f_equal.
  unfold split_rest. apply split_loop_fuel; lia.
Qed.

Lemma extract_quoted_space c s :
  isspace c = true -> extract_quoted (c :: s) = extract_quoted s.
Proof. intros H. unfold extract_quoted. cbn [skipws]. now rewrite H. Qed.

Lemma split_rest_space c s :
  isspace c = true -> split_rest (c :: s) = split_rest s.
Proof.
  intros H. rewrite (split_rest_step (c :: s)), (split_rest_step s).
  now rewrite extract_quoted_space.
Qed.

Lemma skipws_all_space s : forallb isspace s = true -> skipws s = [].
Proof.
  induction s as [|c s IH]; [reflexivity|]. cbn.
  intros H. apply andb_prop in H as [Hc Hs]. rewrite Hc. auto.
Qed.

(** X1. A line of white space only holds no word. *)
Theorem split_all_space :
  forall line, all_space line = true -> split line = [].
Proof.
  intros line H. rewrite split_rest_chars, split_rest_step.
  unfold extract_quoted. now rewrite (skipws_all_space _ H).
Qed.

Lemma read_word_plain w :
  forall tail,
    forallb nonspace w = true -> at_break tail = true ->
    read_word (w ++ tail) = (w, tail).
Proof.
  induction w as [|c w IH]; intros tail Hw Ht; cbn [app].
  - destruct tail as [|c t]; [reflexivity|]. cbn in *. now rewrite Ht.
  - cbn in Hw. apply andb_prop in Hw as [Hc Hw].
    unfold nonspace in Hc. apply negb_true_iff in Hc.
    cbn [read_word]. now rewrite Hc, (IH tail Hw Ht).
Qed.

Lemma plain_word_inv w :
  plain_word w = true ->
  exists c s, chars w = c :: s /\ Ascii.eqb c delim = false
              /\ isspace c = false /\ forallb nonspace (c :: s) = true.
Proof.
  unfold plain_word. destruct (chars w) as [|c s]; [discriminate|].
  intros H. apply andb_prop in H as [Hd Hs]. apply negb_true_iff in Hd.
  exists c, s. repeat split; trivial.
  cbn in Hs. apply andb_prop in Hs as [Hc _]. now apply negb_true_iff in Hc.
Qed.

Lemma extract_plain w tail :
  plain_word w = true -> at_break tail = true ->
  extract_quoted (chars w ++ tail) = Some (chars w, tail).
Proof.
  intros Hw Ht. destruct (plain_word_inv _ Hw) as (c & s & E & Hd & Hc & Hs).
  rewrite E in *. unfold extract_quoted. cbn [app skipws].
  rewrite Hc, Hd. f_equal.
  change (c :: s ++ tail) with ((c :: s) ++ tail).
  now apply read_word_plain.
Qed.

Lemma split_rest_plain_words words :
  forall tail,
    forallb plain_word words = true -> at_break tail = true ->
    split_rest (chars (String.concat " " words) ++ tail)
    = words ++ split_rest tail.
Proof.
  induction words as [|w words IH]; intros tail Hw Ht; [reflexivity|].
  cbn [forallb] in Hw. apply andb_prop in Hw as [Hw Hws].
  destruct words as [|w2 words].
  - cbn [String.concat]. rewrite split_rest_step, (extract_plain _ _ Hw Ht).
    unfold chars. now rewrite string_of_list_ascii_of_string.
  - change (String.concat " " (w :: w2 :: words))
      with (w ++ " " ++ String.concat " " (w2 :: words))%string.
    rewrite !chars_app, <- !app_assoc.
    rewrite split_rest_step, (extract_plain _ _ Hw) by reflexivity.
    unfold chars at 1. rewrite string_of_list_ascii_of_string.
    cbn [app]. f_equal.
    change (chars " " ++ ?x) with (" "%char :: x).
    rewrite split_rest_space by reflexivity.
    now apply IH.
Qed.

(** X2. Words that need no quotes, joined by single spaces, are split
    into those same words. *)
Theorem split_joined_plain_words :
  forall words,
    forallb plain_word words = true ->
    split (String.concat " " words) = words.
Proof.
  intros words H. rewrite split_rest_chars.
  rewrite <- (app_nil_r (chars _)), split_rest_plain_words by trivial.
  apply app_nil_r.
Qed.

Lemma read_quoted_closed w :
  forall acc rest,
    forallb (fun d => negb (Ascii.eqb d delim) && negb (Ascii.eqb d escape))
            w = true ->
    read_quoted (w ++ delim :: rest) acc = Some (acc ++ w, rest).
Proof.
  induction w as [|c w IH]; intros acc rest H; cbn [app].
  - cbn. now rewrite app_nil_r.
  - cbn [forallb] in H. apply andb_prop in H as [Hc Hw].
    apply andb_prop in Hc as [Hd He]. apply negb_true_iff in Hd, He.
    cbn [read_quoted]. rewrite He, Hd, IH by exact Hw.
    now rewrite <- app_assoc.
Qed.

(** X3. A line that begins with a quoted text free of double quotes and
    backslashes gives that text as its first word, white space included,
    and the words of what follows the closing quote after it. *)
Theorem split_leading_quoted_word :
  forall w rest,
    no_quote_or_escape w = true ->
    split (dquote ++ w ++ dquote ++ rest)%string = w :: split rest.
Proof.
  intros w rest H. rewrite !split_rest_chars, !chars_app, split_rest_step.
  unfold extract_quoted. cbn [chars dquote list_ascii_of_string app skipws].
  assert (Hd : isspace delim = false) by reflexivity.
  rewrite Hd, Ascii.eqb_refl.
  fold (chars w) (chars rest). rewrite read_quoted_closed by exact H.
  cbn [app]. unfold chars. now rewrite string_of_list_ascii_of_string.
Qed.

Lemma read_quoted_open n :
  forall s acc,
    (List.length s <= n)%nat -> forallb not_delim s = true ->
    read_quoted s acc = None.
Proof.
  induction n as [|n IH]; intros s acc Hn H.
  - destruct s; [reflexivity|cbn in Hn; lia].
  - destruct s as [|c s]; [reflexivity|].
    cbn [forallb] in H. apply andb_prop in H as [Hc Hs].
    unfold not_delim in Hc. apply negb_true_iff in Hc.
    cbn [read_quoted List.length] in *. rewrite Hc.
    destruct (Ascii.eqb c escape).
    + destruct s as [|d s]; [reflexivity|].
      cbn [forallb List.length] in *. apply andb_prop in Hs as [_ Hs].
      apply IH; [lia|exact Hs].
    + apply IH; [lia|exact Hs].
Qed.

(** X4. A quoted text that is never closed is dropped with all that
    follows its opening quote: only the words before it are kept. *)
Theorem split_unclosed_quote_dropped :
  forall words w,
    forallb plain_word words = true ->
    no_quote w = true ->
    split (String.concat " " words ++ " " ++ dquote ++ w)%string = words.
Proof.
  intros words w Hws Hw. rewrite split_rest_chars, !chars_app.
  rewrite split_rest_plain_words by trivial.
  change (chars " " ++ ?x) with (" "%char :: x).
  rewrite split_rest_space, split_rest_step by reflexivity.
  unfold extract_quoted. cbn [chars dquote list_ascii_of_string app skipws].
  assert (Hd : isspace delim = false) by reflexivity.
  rewrite Hd, Ascii.eqb_refl.
  rewrite (read_quoted_open _ _ _ (le_n _)) by exact Hw.
  apply app_nil_r.
Qed.

Lemma read_word_spec s :
  let '(w, r) := read_word s in
  s = w ++ r /\ forallb nonspace w = true /\ at_break r = true.
Proof.
  induction s as [|c s IH]; cbn [read_word]; [now repeat split|].
  destruct (isspace c) eqn:Hc.
  - repeat split. cbn. exact Hc.
  - destruct (read_word s) as [w r]. destruct IH as (-> & Hw & Hr).
    repeat split; trivial. cbn. unfold nonspace at 1. now rewrite Hc.
Qed.

Lemma skipws_spec s :
  filter nonspace (skipws s) = filter nonspace s
  /\ (forallb not_delim s = true -> forallb not_delim (skipws s) = true).
Proof.
  induction s as [|c s [IH1 IH2]]; cbn [skipws]; [now split|].
  destruct (isspace c) eqn:Hc.
  - split.
    + cbn [filter]. unfold nonspace at 2. now rewrite Hc.
    + intros H. cbn in H. apply andb_prop in H as [_ H]. auto.
  - now split.
Qed.

Lemma filter_nonspace_word w :
  forallb nonspace w = true -> filter nonspace w = w.
Proof.
  induction w as [|c w IH]; [reflexivity|]. cbn.
  intros H. apply andb_prop in H as [Hc Hw]. now rewrite Hc, IH.
Qed.

Lemma split_rest_unquoted n :
  forall s,
    (List.length s <= n)%nat -> forallb not_delim s = true ->
    List.concat (map chars (split_rest s)) = filter nonspace s
    /\ Forall (fun w => plain_word w = true) (split_rest s).
Proof.
  induction n as [|n IH]; intros s Hn Hs.
  - destruct s; [|cbn in Hn; lia]. split; [reflexivity|constructor].
  - rewrite split_rest_step. unfold extract_quoted.
    destruct (skipws_spec s) as [Hf Hq]. specialize (Hq Hs).
    pose proof (skipws_length s) as Hlen.
    destruct (skipws s) as [|c s'] eqn:E.
    { rewrite <- Hf. split; [reflexivity|constructor]. }
    pose proof (skipws_head _ _ _ E) as Hc.
    cbn [forallb] in Hq. apply andb_prop in Hq as [Hd Hq].
    unfold not_delim in Hd. apply negb_true_iff in Hd. rewrite Hd.
    pose proof (read_word_spec (c :: s')) as Hw.
    cbn [read_word] in Hw |- *. rewrite Hc in Hw |- *.
    destruct (read_word s') as [w r]. destruct Hw as (Hcs & Hw & Hr).
    injection Hcs as Hcs.
    assert (Hrq : forallb not_delim r = true).
    { rewrite Hcs, forallb_app in Hq. now apply andb_prop in Hq. }
    assert (Hrn : (List.length r <= n)%nat).
    { cbn [List.length] in Hlen. rewrite Hcs, length_app in Hlen. lia. }
    destruct (IH r Hrn Hrq) as [IH1 IH2].
    split.
    + cbn [map List.concat]. rewrite IH1. unfold chars at 1.
      rewrite list_ascii_of_string_of_list_ascii.
      rewrite <- Hf. cbn [filter].
      assert (Hc' : nonspace c = true) by (unfold nonspace; now rewrite Hc).
      rewrite Hc', Hcs, filter_app. cbn [app]. f_equal. f_equal.
      symmetry. apply filter_nonspace_word.
      cbn [forallb] in Hw. now apply andb_prop in Hw.
    + constructor; [|exact IH2]. unfold plain_word, chars.
      rewrite list_ascii_of_string_of_list_ascii, Hd. exact Hw.
Qed.

(** X5. On a line without double quotes [split] loses nothing but white
    space: the words, put end to end, are the characters of the line that
    are not white space, and no word is empty or holds a white space. *)
Theorem split_unquoted_line :
  forall line,
    no_quote line = true ->
    List.concat (map chars (split line)) = filter nonspace (chars line)
    /\ Forall (fun w => plain_word w = true) (split line).
Proof.
  intros line H. rewrite split_rest_chars.
  now apply (split_rest_unquoted _ _ (le_n _)).
Qed.

End Words.

Lemma split_all_space_witness :
  split (String (ascii_of_nat 32) (String (ascii_of_nat 9) " ")) = [].
Proof. apply split_all_space. reflexivity. Defined.

Lemma split_joined_plain_words_witness :
  split (String.concat " " ["gcc"; "-o"; "a.out"; "main.c"])
  = ["gcc"; "-o"; "a.out"; "main.c"].
Proof. apply split_joined_plain_words. reflexivity. Defined.

Lemma split_leading_quoted_word_witness :
  split (dquote ++ "a  b" ++ dquote ++ " c")%string = "a  b" :: split " c".
Proof. apply split_leading_quoted_word. reflexivity. Defined.

Lemma split_unclosed_quote_dropped_witness :
  split (String.concat " " ["echo"; "one"] ++ " " ++ dquote ++ "two three")%string
  = ["echo"; "one"].
Proof. apply split_unclosed_quote_dropped; reflexivity. Defined.

Lemma split_unquoted_line_witness :
  List.concat (map chars (split "  ls   -l  /tmp "))
  = filter nonspace (chars "  ls   -l  /tmp ")
  /\ Forall (fun w => plain_word w = true) (split "  ls   -l  /tmp ").
Proof. apply split_unquoted_line. reflexivity. Defined.

(* ------------------------------------------------------------------ *)
(** ** [breakDownURL] on well-formed and on ill-formed URLs *)

Section URLs.

Lemma append_assoc (a b c : string) : ((a ++ b) ++ c = a ++ (b ++ c))%string.
Proof. induction a as [|d a IH]; cbn; [reflexivity|now rewrite IH]. Qed.

Lemma size_app a b : Str.size (a ++ b) = Str.size a + Str.size b.
Proof.
  unfold Str.size. induction a as [|d a IH]; cbn [append String.length].
  - lia.
  - rewrite !Nat2Z.inj_succ, IH. lia.
Qed.

Lemma size_nonneg s : 0 <= Str.size s.
Proof. unfold Str.size. lia. Qed.

Lemma size_String c s : Str.size (String c s) = 1 + Str.size s.
Proof. unfold Str.size. cbn [String.length]. lia. Qed.

Lemma lacks_String c d s :
  lacks c (String d s) = true -> Ascii.eqb c d = false /\ lacks c s = true.
Proof.
  unfold lacks, chars. cbn. intros H. apply andb_prop in H as [H1 H2].
  apply negb_true_iff in H1. now split.
Qed.

Lemma find_from_skip_pos here p :
  forall s i pos,
    i + Str.size p <= pos ->
    Str.find_from here (p ++ s) i pos
    = Str.find_from here s (i + Str.size p) pos.
Proof.
  induction p as [|d p IH]; intros s i pos H.
  - cbn [append]. f_equal. unfold Str.size. cbn. lia.
  - rewrite size_String in H. pose proof (size_nonneg p).
    cbn [append Str.find_from].
    destruct (Z.leb_spec pos i); [lia|]. cbn [andb].
    rewrite IH by lia. f_equal. rewrite size_String. lia.
Qed.

Lemma find_char_skip c p :
  forall s i pos,
    lacks c p = true ->
    Str.find_from (Str.starts_with_char c) (p ++ s) i pos
    = Str.find_from (Str.starts_with_char c) s (i + Str.size p) pos.
Proof.
  induction p as [|d p IH]; intros s i pos H.
  - cbn [append]. f_equal. unfold Str.size. cbn. lia.
  - apply lacks_String in H as [Hd Hp].
    cbn [append Str.find_from Str.starts_with_char].
    rewrite Hd, andb_false_r, IH by exact Hp.
    f_equal. rewrite size_String. lia.
Qed.

Lemma find_char_absent c s :
  forall i pos,
    lacks c s = true ->
    Str.find_from (Str.starts_with_char c) s i pos = Str.npos.
Proof.
  induction s as [|d s IH]; intros i pos H.
  - cbn. now rewrite andb_false_r.
  - apply lacks_String in H as [Hd Hs].
    cbn [Str.find_from Str.starts_with_char].
    now rewrite Hd, andb_false_r, IH.
Qed.

Lemma find_char_hit c s i pos :
  pos <= i -> Str.find_from (Str.starts_with_char c) (String c s) i pos = i.
Proof.
  intros H. cbn [Str.find_from Str.starts_with_char].
  rewrite Ascii.eqb_refl. destruct (Z.leb_spec pos i); [reflexivity|lia].
Qed.

Lemma find_separator_skip p :
  forall s i,
    lacks "/" p = true ->
    Str.find_from (String.prefix "//") (p ++ s) i 0
    = Str.find_from (String.prefix "//") s (i + Str.size p) 0.
Proof.
  induction p as [|d p IH]; intros s i H.
  - cbn [append]. f_equal. unfold Str.size. cbn. lia.
  - apply lacks_String in H as [Hd Hp].
    cbn [append Str.find_from String.prefix].
    destruct (ascii_dec "/" d) as [<-|_].
    + now rewrite Ascii.eqb_refl in Hd.
    + rewrite andb_false_r, IH by exact Hp.
      f_equal. rewrite size_String. lia.
Qed.

Lemma find_separator scheme rest :
  lacks "/" scheme = true ->
  Str.find (scheme ++ "://" ++ rest) "//" 0 = Str.size scheme + 1.
Proof.
  intros H. unfold Str.find. rewrite find_separator_skip by exact H.
  pose proof (size_nonneg scheme).
  cbn [append Str.find_from String.prefix].
  destruct (ascii_dec "/" ":") as [E|_]; [discriminate E|].
  rewrite andb_false_r.
  destruct (ascii_dec "/" "/") as [_|N]; [|now elim N].
  assert (P : String.prefix "" rest = true) by now destruct rest.
  rewrite P. destruct (Z.leb_spec 0 (0 + Str.size scheme + 1)); cbn [andb]; lia.
Qed.

Lemma substring_skip a :
  forall n m s,
    substring (String.length a + n) m (a ++ s) = substring n m s.
Proof. induction a as [|d a IH]; intros n m s; cbn; [reflexivity|apply IH]. Qed.

Lemma substring_take b :
  forall c, substring 0 (String.length b) (b ++ c) = b.
Proof.
  induction b as [|d b IH]; intros c; cbn.
  - now destruct c.
  - now rewrite IH.
Qed.

Lemma substr_mid a b c pos n :
  pos = Str.size a -> n = Str.size b ->
  Str.substr (a ++ b ++ c) pos n = Some b.
Proof.
  intros -> ->. unfold Str.substr. rewrite !size_app.
  pose proof (size_nonneg b). pose proof (size_nonneg c).
  destruct (Z.ltb_spec (Str.size a + (Str.size b + Str.size c)) (Str.size a));
    [lia|].
  f_equal. rewrite Z.min_l by lia. unfold Str.size. rewrite !Nat2Z.id.
  rewrite <- (Nat.add_0_r (String.length a)), substring_skip.
  apply substring_take.
Qed.

Lemma substr_tail a b pos :
  pos = Str.size a -> Str.size b <= Str.npos ->
  Str.substr (a ++ b) pos Str.npos = Some b.
Proof.
  intros -> Hb. unfold Str.substr. rewrite size_app.
  pose proof (size_nonneg b).
  destruct (Z.ltb_spec (Str.size a + Str.size b) (Str.size a)); [lia|].
  f_equal. rewrite Z.min_r by lia.
  replace (Str.size a + Str.size b - Str.size a) with (Str.size b) by lia.
  unfold Str.size. rewrite !Nat2Z.id.
  rewrite <- (Nat.add_0_r (String.length a)), substring_skip.
  replace b with (b ++ "")%string at 2
    by (clear; induction b as [|d b IH]; cbn; [reflexivity|now rewrite IH]).
  apply substring_take.
Qed.

Lemma wrap_small z : 0 <= z < Str.npos -> Str.wrap z = z.
Proof. intros H. unfold Str.wrap, Str.npos in *. apply Z.mod_small. lia. Qed.

Lemma lacks_app c a b : lacks c (a ++ b) = lacks c a && lacks c b.
Proof. unfold lacks. now rewrite chars_app, forallb_app. Qed.

Lemma substr_middle url a b c pos n :
  url = (a ++ b ++ c)%string -> pos = Str.size a -> n = Str.size b ->
  Str.substr url pos n = Some b.
Proof. intros ->. apply substr_mid. Qed.

Lemma substr_suffix url a b pos :
  url = (a ++ b)%string -> pos = Str.size a -> Str.size b <= Str.npos ->
  Str.substr url pos Str.npos = Some b.
Proof. intros ->. apply substr_tail. Qed.

Ltac same_text := rewrite ?append_assoc; cbn [append]; reflexivity.

Ltac sizes :=
  repeat first [rewrite size_app | rewrite size_String];
  change (Str.size "") with 0.

(** X6. A URL written scheme://host:port/path, with no '/' in the scheme
    and the port, neither '/' nor ':' in the host, and a path that begins
    with '/', is taken apart into that host, that port and that path. *)
Theorem breakDownURL_with_port :
  forall scheme host port path,
    lacks "/" scheme = true ->
    lacks "/" host = true -> lacks ":" host = true ->
    lacks "/" port = true ->
    Str.starts_with_char "/" path = true ->
    Str.size (scheme ++ "://" ++ host ++ ":" ++ port ++ path) < Str.npos ->
    breakDownURL (scheme ++ "://" ++ host ++ ":" ++ port ++ path)
    = Some (host, port, path).
Proof.
  intros scheme host port path Hs Hh Hhc Hp Hpath Hsize.
  destruct path as [|c path]; [discriminate Hpath|].
  cbn [Str.starts_with_char] in Hpath. apply Ascii.eqb_eq in Hpath. subst c.
  set (url := (scheme ++ "://" ++ host ++ ":" ++ port ++ String "/" path)%string)
    in *.
  pose proof (size_nonneg scheme). pose proof (size_nonneg host).
  pose proof (size_nonneg port). pose proof (size_nonneg path).
  assert (Hlen : Str.size url = Str.size scheme + 3 + Str.size host + 1
                                + Str.size port + 1 + Str.size path).
  { unfold url. cbn [append]. sizes. lia. }
  set (hs := Str.size scheme + 3).
  set (pp := hs + Str.size host).
  set (ps := pp + 1 + Str.size port).
  assert (Hfind : hostStart_of url = hs).
  { unfold hostStart_of, url. rewrite find_separator by exact Hs.
    rewrite wrap_small; unfold hs; lia. }
  assert (Hps : Str.find_char url "/" hs = ps).
  { unfold Str.find_char.
    replace url with ((scheme ++ "://") ++ (host ++ ":" ++ port)
                      ++ String "/" path)%string by (unfold url; same_text).
    rewrite find_from_skip_pos by (sizes; unfold hs; lia).
    rewrite find_char_skip
      by (rewrite !lacks_app, Hh, Hp; reflexivity).
    rewrite find_char_hit by (sizes; unfold hs; lia).
    sizes. unfold ps, pp, hs. lia. }
  assert (Hpp : Str.find_char url ":" hs = pp).
  { unfold Str.find_char.
    replace url with ((scheme ++ "://") ++ host
                      ++ String ":" (port ++ String "/" path))%string
      by (unfold url; same_text).
    rewrite find_from_skip_pos by (sizes; unfold hs; lia).
    rewrite find_char_skip by exact Hhc.
    rewrite find_char_hit by (sizes; unfold hs; lia).
    sizes. unfold pp, hs. lia. }
  assert (Hhost : Str.substr url hs (Str.wrap (pp - hs)) = Some host).
  { apply (substr_middle url (scheme ++ "://") host
                         (":" ++ port ++ String "/" path)).
    - unfold url. same_text.
    - sizes. unfold hs. lia.
    - rewrite wrap_small; unfold pp; lia. }
  assert (Hpath : Str.substr url ps Str.npos = Some (String "/" path)).
  { apply (substr_suffix url (scheme ++ "://" ++ host ++ ":" ++ port)).
    - unfold url. same_text.
    - cbn [append]. sizes. unfold ps, pp, hs. lia.
    - sizes. lia. }
  assert (Hport : Str.substr url (Str.wrap (pp + 1)) (Str.wrap (ps - pp - 1))
                  = Some port).
  { apply (substr_middle url (scheme ++ "://" ++ host ++ ":") port
                         (String "/" path)).
    - unfold url. same_text.
    - rewrite wrap_small by (unfold pp, hs; lia).
      cbn [append]. sizes. unfold pp, hs. lia.
    - rewrite wrap_small; unfold ps; lia. }
  unfold breakDownURL. fold (hostStart_of url). cbv zeta.
  rewrite Hfind, Hps, Hpp.
  destruct (Z.eqb_spec pp Str.npos) as [E|_]; [unfold pp, hs in E; lia|].
  cbn [negb]. now rewrite Hhost, Hpath, Hport.
Qed.

(** X7. A URL written scheme://host/path, with no '/' in the scheme,
    neither '/' nor ':' in the host, and a path that begins with '/' and
    holds no ':', is taken apart into that host, the port "80" and that
    path. *)
Theorem breakDownURL_default_port :
  forall scheme host path,
    lacks "/" scheme = true ->
    lacks "/" host = true -> lacks ":" host = true ->
    Str.starts_with_char "/" path = true -> lacks ":" path = true ->
    Str.size (scheme ++ "://" ++ host ++ path) < Str.npos ->
    breakDownURL (scheme ++ "://" ++ host ++ path) = Some (host, "80", path).
Proof.
  intros scheme host path Hs Hh Hhc Hpath Hpc Hsize.
  destruct path as [|c path]; [discriminate Hpath|].
  cbn [Str.starts_with_char] in Hpath. apply Ascii.eqb_eq in Hpath. subst c.
  set (url := (scheme ++ "://" ++ host ++ String "/" path)%string) in *.
  pose proof (size_nonneg scheme). pose proof (size_nonneg host).
  pose proof (size_nonneg path).
  assert (Hlen : Str.size url
                 = Str.size scheme + 3 + Str.size host + 1 + Str.size path).
  { unfold url. cbn [append]. sizes. lia. }
  set (hs := Str.size scheme + 3).
  set (ps := hs + Str.size host).
  assert (Hfind : hostStart_of url = hs).
  { unfold hostStart_of, url. rewrite find_separator by exact Hs.
    rewrite wrap_small; unfold hs; lia. }
  assert (Hps : Str.find_char url "/" hs = ps).
  { unfold Str.find_char.
    replace url with ((scheme ++ "://") ++ host ++ String "/" path)%string
      by (unfold url; same_text).
    rewrite find_from_skip_pos by (sizes; unfold hs; lia).
    rewrite find_char_skip by exact Hh.
    rewrite find_char_hit by (sizes; unfold hs; lia).
    sizes. unfold ps, hs. lia. }
  assert (Hpp : Str.find_char url ":" hs = Str.npos).
  { unfold Str.find_char.
    replace url with ((scheme ++ "://") ++ host ++ String "/" path)%string
      by (unfold url; same_text).
    rewrite find_from_skip_pos by (sizes; unfold hs; lia).
    apply find_char_absent. now rewrite lacks_app, Hhc, Hpc. }
  assert (Hhost : Str.substr url hs (Str.wrap (ps - hs)) = Some host).
  { apply (substr_middle url (scheme ++ "://") host (String "/" path)).
    - unfold url. same_text.
    - sizes. unfold hs. lia.
    - rewrite wrap_small; unfold ps; lia. }
  assert (Hpath : Str.substr url ps Str.npos = Some (String "/" path)).
  { apply (substr_suffix url (scheme ++ "://" ++ host)).
    - unfold url. same_text.
    - cbn [append]. sizes. unfold ps, hs. lia.
    - sizes. lia. }
  unfold breakDownURL. fold (hostStart_of url). cbv zeta.
  rewrite Hfind, Hps, Hpp. cbn [Z.eqb negb].
  change (Str.npos =? Str.npos) with true. cbn [negb].
  now rewrite Hhost, Hpath.
Qed.

Lemma find_char_found c s :
  forall i pos r,
    Str.find_from (Str.starts_with_char c) s i pos = r -> r <> Str.npos ->
    exists before rest,
      s = (before ++ String c rest)%string /\ r = i + Str.size before.
Proof.
  induction s as [|d s IH]; intros i pos r E Hr.
  - cbn [Str.find_from Str.starts_with_char] in E.
    rewrite andb_false_r in E. congruence.
  - cbn [Str.find_from] in E.
    destruct ((pos <=? i) && Str.starts_with_char c (String d s)) eqn:Hit.
    + apply andb_prop in Hit as [_ Hd]. cbn [Str.starts_with_char] in Hd.
      apply Ascii.eqb_eq in Hd. subst d r.
      exists ""%string, s. split; [reflexivity|]. unfold Str.size. cbn. lia.
    + destruct (IH _ _ _ E Hr) as (before & rest & -> & ->).
      exists (String d before), rest. split; [reflexivity|].
      rewrite size_String. lia.
Qed.

Lemma breakDownURL_throws_or_not url :
  Str.size url < Str.npos ->
  Str.find_char url "/" (hostStart_of url) = Str.npos ->
  breakDownURL url = None.
Proof.
  intros Hsize E. unfold breakDownURL. fold (hostStart_of url). cbv zeta.
  rewrite E. unfold Str.substr.
  destruct (Str.size url <? hostStart_of url); [reflexivity|].
  destruct (Z.ltb_spec (Str.size url) Str.npos); [reflexivity|lia].
Qed.

(** X8. [breakDownURL] throws exactly when the URL has no '/' at or after
    the host start it computed: a URL with a host and no path, such as
    http://host, is not resolved. *)
Theorem breakDownURL_throws_iff_no_path :
  forall url,
    Str.size url < Str.npos ->
    (breakDownURL url = None
     <-> Str.find_char url "/" (hostStart_of url) = Str.npos).
Proof.
  intros url Hsize. unfold breakDownURL. fold (hostStart_of url). cbv zeta.
  set (hs := hostStart_of url).
  pose proof (find_char_range url "/" hs) as Hpath.
  pose proof (find_char_range url ":" hs) as Hport.
  cbn zeta in Hpath, Hport.
  set (pathStart := Str.find_char url "/" hs) in *.
  set (portPos := Str.find_char url ":" hs) in *.
  unfold Str.substr.
  destruct Hpath as [Hpath|Hpath].
  - rewrite Hpath. split; [reflexivity|intros _].
    destruct (Str.size url <? hs); [reflexivity|].
    destruct (Z.ltb_spec (Str.size url) Str.npos); [reflexivity|lia].
  - assert (Hne : pathStart <> Str.npos) by lia.
    destruct (Z.ltb_spec (Str.size url) hs); [lia|].
    destruct (Z.ltb_spec (Str.size url) pathStart); [lia|].
    split; [|intros E; contradiction].
    destruct (Z.eqb_spec portPos Str.npos) as [E|E]; cbn [negb].
    + discriminate.
    + destruct Hport as [Hport|Hport]; [contradiction|].
      rewrite wrap_small by lia.
      destruct (Z.ltb_spec (Str.size url) (portPos + 1)); [lia|].
      discriminate.
Qed.

(** X9. Whenever [breakDownURL] returns, the path it gives is the end of
    the URL from the first '/' at or after the host start: it begins with
    '/', and nothing of the URL after it is lost. *)
Theorem breakDownURL_path_is_suffix :
  forall url hostName port path,
    Str.size url < Str.npos ->
    breakDownURL url = Some (hostName, port, path) ->
    exists before,
      url = (before ++ path)%string
      /\ Str.starts_with_char "/" path = true
      /\ Str.size before = Str.find_char url "/" (hostStart_of url).
Proof.
  intros url hostName port path Hsize H.
  assert (Hsub : Str.substr url (Str.find_char url "/" (hostStart_of url))
                            Str.npos = Some path).
  { unfold breakDownURL in H. fold (hostStart_of url) in H. cbv zeta in H.
    destruct (Str.substr url (hostStart_of url) _); [|discriminate H].
    destruct (Str.substr url (Str.find_char url "/" (hostStart_of url))
                         Str.npos) as [path'|]; [|discriminate H].
    destruct (negb _).
    - destruct (Str.substr url (Str.wrap _) _); [|discriminate H].
      congruence.
    - congruence. }
  assert (Hne : Str.find_char url "/" (hostStart_of url) <> Str.npos).
  { intros E. apply breakDownURL_throws_or_not in E; [congruence|exact Hsize]. }
  destruct (find_char_found "/" url 0 _ _ eq_refl Hne)
    as (before & rest & Hurl & Hpos).
  fold (Str.find_char url "/" (hostStart_of url)) in Hpos.
  exists before.
  rewrite (substr_suffix url before (String "/" rest)) in Hsub.
  - injection Hsub as <-. split; [exact Hurl|]. split; [|lia].
    cbn [Str.starts_with_char]. apply Ascii.eqb_refl.
  - exact Hurl.
  - lia.
  - rewrite Hurl, size_app in Hsize. pose proof (size_nonneg before). lia.
Qed.

End URLs.

Lemma breakDownURL_with_port_witness :
  breakDownURL ("https" ++ "://" ++ "localhost" ++ ":" ++ "8080"
                ++ "/~raodm/one.txt")
  = Some ("localhost", "8080", "/~raodm/one.txt").
Proof. apply breakDownURL_with_port; reflexivity. Defined.

Lemma breakDownURL_default_port_witness :
  breakDownURL ("ftp" ++ "://" ++ "ftp.files.miamioh.edu" ++ "/index.html")
  = Some ("ftp.files.miamioh.edu", "80", "/index.html").
Proof. apply breakDownURL_default_port; reflexivity. Defined.

Lemma breakDownURL_throws_iff_no_path_witness :
  breakDownURL "http://host" = None
  <-> Str.find_char "http://host" "/" (hostStart_of "http://host") = Str.npos.
Proof. apply breakDownURL_throws_iff_no_path. reflexivity. Defined.

Lemma breakDownURL_path_is_suffix_witness :
  exists before,
    "http://h:1/p/q" = (before ++ "/p/q")%string
    /\ Str.starts_with_char "/" "/p/q" = true
    /\ Str.size before
       = Str.find_char "http://h:1/p/q" "/" (hostStart_of "http://h:1/p/q").
Proof.
  apply (breakDownURL_path_is_suffix "http://h:1/p/q" "h" "1" "/p/q");
    reflexivity.
Defined.

(* ------------------------------------------------------------------ *)
(** ** Nested scripts: where their lines come from *)

Section Sources.

Context {OS : Type} {sys : System OS}.

Lemma skipHeaders_body headers :
  forall sep body,
    forallb header_line headers = true -> header_line sep = false ->
    skipHeaders (headers ++ sep :: body) = body.
Proof.
  induction headers as [|hdr headers IH]; intros sep body Hh Hs; cbn [app].
  - cbn [skipHeaders]. unfold header_line in Hs. now rewrite Hs.
  - cbn [forallb] in Hh. apply andb_prop in Hh as [Hhdr Hh].
    cbn [skipHeaders]. unfold header_line in Hhdr. rewrite Hhdr. now apply IH.
Qed.

(** X10. The header loop reads up to and including the first line that is
    empty or a lone carriage return: what is left of the response is what
    follows that line. *)
Theorem skipHeaders_leaves_body :
  forall headers sep body,
    forallb header_line headers = true -> header_line sep = false ->
    skipHeaders (headers ++ sep :: body) = body.
Proof. exact skipHeaders_body. Qed.

(** X11. A response in which no line is empty or a lone carriage return
    is read to its end by the header loop: no line is left for the
    script. *)
Theorem skipHeaders_without_separator :
  forall response,
    forallb header_line response = true -> skipHeaders response = [].
Proof.
  induction response as [|hdr response IH]; [reflexivity|].
  cbn [forallb skipHeaders]. intros H. apply andb_prop in H as [Hhdr H].
  unfold header_line in Hhdr. rewrite Hhdr. now apply IH.
Qed.

Lemma http_gate_hostStart url :
  (Str.find url "http://" 0 =? 0) = true -> hostStart_of url = 7.
Proof.
  intros H. apply Z.eqb_eq, find_zero_prefix, http_prefix_has_separator in H.
  unfold hostStart_of. now rewrite H.
Qed.

(** X12. For a reference that begins with "http://" and that
    [breakDownURL] resolves, [processScript] sends one GET request for the
    path to the host and port, and runs as a script, in the mode it was
    given, the lines of the response after the header separator. *)
Theorem processScript_runs_response_body :
  forall fuel url parallel (os : OS) hostname port path headers sep body os',
    (Str.find url "http://" 0 =? 0) = true ->
    breakDownURL url = Some (hostname, port, path) ->
    tcp_iostream hostname port (http_request hostname path) os
    = (headers ++ sep :: body, os') ->
    forallb header_line headers = true -> header_line sep = false ->
    processScript (S fuel) url parallel os
    = nested url parallel (process fuel body "" parallel) os'.
Proof.
  intros fuel url parallel os hostname port path headers sep body os'
         Hgate Hurl Htcp Hh Hs.
  rewrite processScript_S. unfold nested, bind, script_source.
  rewrite Hgate. unfold setupHTTPStream. rewrite Hurl.
  fold (http_request hostname path). rewrite Htcp.
  rewrite skipHeaders_body by assumption.
  destruct (process fuel body "" parallel os') as [[r t] os2]. reflexivity.
Qed.

(** X13. A reference that begins with "http://" and has no '/' after
    those seven characters stops the whole run with the exception of
    [substr], before any connection is made. *)
Theorem processScript_url_without_path :
  forall fuel url parallel (os : OS),
    (Str.find url "http://" 0 =? 0) = true ->
    Str.size url < Str.npos ->
    Str.find_char url "/" 7 = Str.npos ->
    processScript (S fuel) url parallel os
    = (Stop StdOutOfRange, [Nested url parallel []], os).
Proof.
  intros fuel url parallel os Hgate Hsize Hpath.
  rewrite processScript_S. unfold nested, bind, script_source.
  rewrite Hgate. unfold setupHTTPStream.
  rewrite breakDownURL_throws_or_not; [reflexivity|exact Hsize|].
  now rewrite (http_gate_hostStart _ Hgate).
Qed.

(** X14. A reference that does not begin with "http://" and whose file
    gives no line (a missing file, an empty file) is an empty script: one
    read that fails, nothing run, and the run goes on. *)
Theorem processScript_empty_file :
  forall fuel name parallel (os os' : OS),
    (Str.find name "http://" 0 =? 0) = false ->
    ifstream name os = ([], os') ->
    processScript (S fuel) name parallel os
    = (Ok tt, [Nested name parallel [Prompt ""]], os').
Proof.
  intros fuel name parallel os os' Hgate Hfile.
  rewrite processScript_S. unfold nested, bind, script_source, open_file.
  now rewrite Hgate, Hfile.
Qed.

End Sources.

Lemma skipHeaders_leaves_body_witness :
  skipHeaders (["HTTP/1.1 200 OK"; "Server: sim"] ++ CR :: ["ls"; ""; "date"])
  = ["ls"; ""; "date"].
Proof. apply skipHeaders_leaves_body; reflexivity. Defined.

Lemma skipHeaders_without_separator_witness :
  skipHeaders ["HTTP/1.1 404 Not Found"; "Server: sim"] = [].
Proof. apply skipHeaders_without_separator. reflexivity. Defined.

Lemma processScript_runs_response_body_witness :
  processScript 1 "http://h/x" true 0%nat
  = nested "http://h/x" true (process 0 ["ls -l"; "exit"; "date"] "" true)
           0%nat.
Proof.
  apply (processScript_runs_response_body (sys := Sim.sim)
           0 "http://h/x" true 0%nat "h" "80" "/x"
           ["HTTP/1.1 200 OK"; "Server: sim"] "" ["ls -l"; "exit"; "date"]);
    reflexivity.
Defined.

Lemma processScript_url_without_path_witness :
  processScript 1 "http://host" false 0%nat
  = (Stop StdOutOfRange, [Nested "http://host" false []], 0%nat).
Proof.
  apply (processScript_url_without_path (sys := Sim.sim)); reflexivity.
Defined.

Lemma processScript_empty_file_witness :
  processScript 1 "missing.sh" true 3%nat
  = (Ok tt, [Nested "missing.sh" true [Prompt ""]], 3%nat).
Proof.
  apply (processScript_empty_file (sys := Sim.sim)); reflexivity.
Defined.

(* ------------------------------------------------------------------ *)
(** ** How a run ended *)

Section Outcomes.

Context {OS : Type} {sys : System OS}.

Lemma outcome_prepend {A} t (x : result A * trace * OS) :
  outcome (prepend t x) = outcome x.
Proof. now destruct x as [[r t'] os]. Qed.

Lemma outcome_nested fileOrUrl parallel (m : M OS unit) os :
  outcome (nested fileOrUrl parallel m os) = outcome (m os).
Proof. unfold nested. now destruct (m os) as [[r t] os']. Qed.

End Outcomes.

(* ------------------------------------------------------------------ *)
(** ** Properties of every event of a run *)

Section Events.

Context {OS : Type} {sys : System OS}.

Variable Q : event -> Prop.
Variable strict : bool.
Variable ps : string -> bool -> M OS unit.
Variable prompt : string.

Hypothesis Q_prompt : Q (Prompt prompt).
Hypothesis Q_running : forall argList, Q (Running argList).
Hypothesis Q_fork : forall cp argList, Q (Fork cp argList).
Hypothesis Q_wait : forall cp code, Q (Wait cp code).
Hypothesis Q_exit : forall code, Q (ExitCode code).
Hypothesis Q_ps :
  forall fileOrUrl parallel os,
    completed strict (outcome (ps fileOrUrl parallel os)) ->
    Forall Q (trace_of (ps fileOrUrl parallel os)).

Lemma trace_of_prepend {A} t (x : result A * trace * OS) :
  trace_of (prepend t x) = t ++ trace_of x.
Proof. now destruct x as [[r t'] os]. Qed.

Lemma completed_stop {A} (f : fault) :
  completed (A := A) strict (Stop f) -> strict = false.
Proof. intros [H|[a H]]; [exact H|discriminate H]. Qed.

Lemma loop_events input :
  forall parallel childList os,
    completed strict (outcome (loop ps input prompt parallel childList os)) ->
    Forall Q (trace_of (loop ps input prompt parallel childList os)).
Proof.
  induction input as [|line rest IH]; intros parallel childList os.
  - intros _. rewrite loop_end. cbn. auto.
  - rewrite loop_cases.
    destruct (line =? "exit")%string; [intros _; cbn; auto|].
    destruct (skipped line).
    { rewrite outcome_prepend, trace_of_prepend. intros H.
      apply Forall_app. split; [auto|apply IH, H]. }
    destruct (split line) as [|verb more]; [intros _; cbn; auto|].
    destruct ((verb =? "SERIAL") || (verb =? "PARALLEL"))%string.
    + destruct more as [|ref more]; [intros _; cbn; auto|].
      pose proof (Q_ps ref (verb =? "PARALLEL")%string os) as Hps.
      destruct (ps ref (verb =? "PARALLEL")%string os) as [[[[]|f] t] os1].
      * rewrite outcome_prepend, trace_of_prepend. intros H.
        apply Forall_app. split; [|apply IH, H].
        constructor; [exact Q_prompt|]. apply Hps. right. now exists tt.
      * intros H. apply completed_stop in H. cbn.
        constructor; [exact Q_prompt|]. apply Hps. now left.
    + destruct (forkNexec (verb :: more) os) as [cp os1].
      destruct parallel.
      * rewrite outcome_prepend, trace_of_prepend. intros H.
        apply Forall_app. split; [auto|apply IH, H].
      * destruct (wait cp os1) as [code os2].
        rewrite outcome_prepend, trace_of_prepend. intros H.
        apply Forall_app. split; [|apply IH, H].
        repeat constructor; auto.
Qed.

Lemma drained_events childList :
  forall codes, Forall Q (drained childList codes).
Proof.
  induction childList as [|proc others IH]; intros [|code codes];
    try (cbn; constructor).
  - exact (Q_wait proc code).
  - constructor; [exact (Q_exit code)|apply IH].
Qed.

Lemma process_with_events input parallel os :
  completed strict (outcome (process_with ps input prompt parallel os)) ->
  Forall Q (trace_of (process_with ps input prompt parallel os)).
Proof.
  unfold process_with, bind.
  pose proof (loop_events input parallel [] os) as Hloop.
  destruct (loop ps input prompt parallel [] os) as [[[childList|f] t] os1].
  - destruct (drain_trace childList os1) as (codes & os2 & _ & ->).
    intros _. cbn. apply Forall_app. split.
    + apply Hloop. right. now exists childList.
    + apply drained_events.
  - intros H. apply completed_stop in H. apply Hloop. now left.
Qed.

End Events.

(* ------------------------------------------------------------------ *)
(** ** Prompts *)

Section Prompts.

Context {OS : Type} {sys : System OS}.

Lemma script_source_trace fileOrUrl (os : OS) :
  trace_of (script_source fileOrUrl os) = [].
Proof.
  unfold script_source, setupHTTPStream, open_file.
  destruct (Str.find fileOrUrl "http://" 0 =? 0).
  - destruct (breakDownURL fileOrUrl) as [[[hostname port] path]|];
      [|reflexivity].
    now destruct (tcp_iostream _ _ _ os).
  - now destruct (ifstream fileOrUrl os).
Qed.

Lemma trace_of_script fuel fileOrUrl parallel (os : OS) :
  exists t,
    trace_of (processScript (S fuel) fileOrUrl parallel os)
    = [Nested fileOrUrl parallel t]
    /\ (t = []
        \/ exists script os1,
            outcome (script_source fileOrUrl os) = Ok script
            /\ t = trace_of (process fuel script "" parallel os1)
            /\ outcome (processScript (S fuel) fileOrUrl parallel os)
               = outcome (process fuel script "" parallel os1)).
Proof.
  rewrite processScript_S. unfold nested, bind.
  pose proof (script_source_trace fileOrUrl os) as Ht.
  destruct (script_source fileOrUrl os) as [[[script|f] t0] os1];
    cbn in Ht; subst t0.
  - destruct (process fuel script "" parallel os1) as [[r t] os2] eqn:E.
    exists ([] ++ t). split; [reflexivity|]. right. exists script, os1.
    rewrite E. now repeat split.
  - exists []. split; [reflexivity|now left].
Qed.

Lemma processScript_prompts fuel :
  forall text fileOrUrl parallel (os : OS),
    Forall (prompt_ok text)
           (trace_of (processScript fuel fileOrUrl parallel os)).
Proof.
  induction fuel as [|fuel IH]; intros text fileOrUrl parallel os.
  - cbn. constructor.
  - destruct (trace_of_script fuel fileOrUrl parallel os)
      as (t & -> & [->|(script & os1 & _ & -> & _)]).
    + repeat constructor.
    + repeat constructor.
      apply (process_with_events (prompt_ok "") false); try constructor.
      * intros. apply IH.
      * reflexivity.
Qed.

(** X16. In the trace of any run, however it ends, every prompt of the
    invocation itself shows the prompt text it was given, and every prompt
    of a nested script, at any depth, is the empty text. *)
Theorem nested_prompts_are_empty :
  forall fuel input prompt parallel (os : OS),
    Forall (prompt_ok prompt)
           (trace_of (process fuel input prompt parallel os)).
Proof.
  intros fuel input prompt parallel os.
  apply (process_with_events (prompt_ok prompt) false); try constructor.
  - intros. apply processScript_prompts.
  - reflexivity.
Qed.

End Prompts.

(* ------------------------------------------------------------------ *)
(** ** The shape of a serial run *)

Section SerialShape.

Context {OS : Type} {sys : System OS}.

Lemma serial_shape_app t1 t2 :
  serial_shape t1 -> serial_shape t2 -> serial_shape (t1 ++ t2).
Proof. induction 1; intros H2; cbn [app]; try constructor; auto. Qed.

Lemma serial_shape_waits t : serial_shape t -> waits t = forks t.
Proof. induction 1; cbn; congruence. Qed.

Lemma processScript_shape fuel fileOrUrl parallel (os : OS) :
  serial_shape (trace_of (processScript fuel fileOrUrl parallel os)).
Proof.
  destruct fuel as [|fuel]; [constructor|].
  destruct (trace_of_script fuel fileOrUrl parallel os) as (t & -> & _).
  repeat constructor.
Qed.

Lemma loop_serial_shape (ps : string -> bool -> M OS unit) prompt :
  (forall fileOrUrl parallel os,
      serial_shape (trace_of (ps fileOrUrl parallel os))) ->
  forall input childList os,
    serial_shape (trace_of (loop ps input prompt false childList os)).
Proof.
  intros Hps. induction input as [|line rest IH]; intros childList os.
  - rewrite loop_end. repeat constructor.
  - rewrite loop_cases.
    destruct (line =? "exit")%string; [repeat constructor|].
    destruct (skipped line).
    { rewrite trace_of_prepend. cbn [app]. constructor. apply IH. }
    destruct (split line) as [|verb more]; [repeat constructor|].
    destruct ((verb =? "SERIAL") || (verb =? "PARALLEL"))%string.
    + destruct more as [|ref more]; [repeat constructor|].
      specialize (Hps ref (verb =? "PARALLEL")%string os).
      destruct (ps ref (verb =? "PARALLEL")%string os) as [[[[]|f] t] os1];
        cbn in Hps.
      * rewrite trace_of_prepend. cbn [app]. constructor.
        apply serial_shape_app; [exact Hps|apply IH].
      * cbn. now constructor.
    + destruct (forkNexec (verb :: more) os) as [cp os1].
      destruct (wait cp os1) as [code os2].
      rewrite trace_of_prepend. cbn [app]. repeat constructor. apply IH.
Qed.

Lemma process_serial_shape fuel input prompt (os : OS) :
  serial_shape (trace_of (process fuel input prompt false os)).
Proof.
  unfold process, process_with, bind.
  pose proof (loop_serial_shape (processScript fuel) prompt
                (processScript_shape fuel) input [] os) as Hshape.
  pose proof (loop_keeps_group (processScript fuel) prompt false
                (processScript_enclosed fuel) input [] os) as Hgroup.
  destruct (loop (processScript fuel) input prompt false [] os)
    as [[[childList|f] t] os1]; [|exact Hshape].
  destruct Hgroup as [_ ->]. cbn. now rewrite app_nil_r.
Qed.

(** X17. The own trace of a serial run of any script, however the run
    ends, is made of prompts, nested scripts, and commands each echoed,
    forked, waited for and reported before anything else happens: no
    child is ever left running when the next line is read. *)
Theorem serial_run_has_serial_shape :
  forall fuel input prompt (os : OS),
    serial_shape (trace_of (process fuel input prompt false os)).
Proof. exact process_serial_shape. Qed.

End SerialShape.

(* ------------------------------------------------------------------ *)
(** ** Every child that was forked is waited for *)

Section Balanced.

Context {OS : Type} {sys : System OS}.

Lemma forks_drained childList :
  forall codes, forks (drained childList codes) = [].
Proof.
  induction childList as [|proc others IH]; intros [|code codes];
    try reflexivity.
  cbn. apply IH.
Qed.

Lemma process_waits_its_forks fuel input prompt parallel (os : OS) :
  (exists a, outcome (process fuel input prompt parallel os) = Ok a) ->
  waits (trace_of (process fuel input prompt parallel os))
  = forks (trace_of (process fuel input prompt parallel os)).
Proof.
  destruct parallel.
  - intros [a Ha]. revert Ha. unfold process, process_with, bind.
    pose proof (loop_keeps_group (processScript fuel) prompt true
                  (processScript_enclosed fuel) input [] os) as Hgroup.
    destruct (loop (processScript fuel) input prompt true [] os)
      as [[[childList|f] t] os1]; [|discriminate].
    destruct Hgroup as [Hq Hg]. destruct (Hq eq_refl) as [Hw _].
    cbn [app] in Hg. subst childList.
    destruct (drain_trace (forks t) os1) as (codes & os2 & Hlen & ->).
    intros _. cbn.
    rewrite waits_app, forks_app, Hw, waits_drained, forks_drained
      by exact Hlen.
    now rewrite app_nil_r.
  - intros _. apply serial_shape_waits, process_serial_shape.
Qed.

Lemma processScript_balanced fuel :
  forall fileOrUrl parallel (os : OS),
    completed true (outcome (processScript fuel fileOrUrl parallel os)) ->
    Forall balanced_event
           (trace_of (processScript fuel fileOrUrl parallel os)).
Proof.
  induction fuel as [|fuel IH]; intros fileOrUrl parallel os H.
  - constructor.
  - destruct (trace_of_script fuel fileOrUrl parallel os)
      as (t & -> & [->|(script & os1 & _ & -> & Ho)]).
    + repeat constructor.
    + rewrite Ho in H. destruct H as [H|H]; [discriminate H|].
      repeat constructor.
      * now apply process_waits_its_forks.
      * apply (process_with_events balanced_event true (processScript fuel)
                 "" (balanced_prompt _) balanced_running balanced_fork
                 balanced_wait balanced_exit IH).
        now right.
Qed.

(** X18. In a run that comes to its end, every invocation, the outer one
    and every nested one at any depth, has waited for exactly the children
    it forked itself, once each and in the order of the forks: no child is
    left without a wait, in serial and in parallel mode. *)
Theorem completed_run_waits_for_every_child :
  forall fuel input prompt parallel (os : OS) t os',
    process fuel input prompt parallel os = (Ok tt, t, os') ->
    waits t = forks t /\ Forall balanced_event t.
Proof.
  intros fuel input prompt parallel os t os' H.
  assert (Ht : t = trace_of (process fuel input prompt parallel os))
    by now rewrite H.
  assert (Ho : exists a, outcome (process fuel input prompt parallel os)
                         = Ok a)
    by (exists tt; now rewrite H).
  subst t. split.
  - now apply process_waits_its_forks.
  - apply (process_with_events balanced_event true (processScript fuel)
             prompt (balanced_prompt _) balanced_running balanced_fork
             balanced_wait balanced_exit (processScript_balanced fuel)).
    now right.
Qed.

End Balanced.

Lemma completed_run_waits_for_every_child_witness :
  let t :=
    [Prompt "> "; Running ["ls"]; Fork 100%nat ["ls"];
     Prompt "> ";
     Nested "leaf.sh" false
       [Prompt ""; Running ["echo"; "b"]; Fork 101%nat ["echo"; "b"];
        Wait 101%nat 2; ExitCode 2;
        Prompt ""; Running ["echo"; "c"]; Fork 102%nat ["echo"; "c"];
        Wait 102%nat 0; ExitCode 0;
        Prompt ""];
     Prompt "> "; Running ["date"]; Fork 103%nat ["date"];
     Prompt "> ";
     Wait 100%nat 1; ExitCode 1; Wait 103%nat 1; ExitCode 1] in
  waits t = forks t /\ Forall balanced_event t.
Proof.
  apply (completed_run_waits_for_every_child (sys := Sim.sim)
           1 ["ls"; "SERIAL leaf.sh"; "date"] "> " true 0%nat _ 4%nat).
  reflexivity.
Defined.

(* ------------------------------------------------------------------ *)
(** ** The nesting budget does not show in the result *)

Section Budget.

Context {OS : Type} {sys : System OS}.

Lemma loop_stable (ps1 ps2 : string -> bool -> M OS unit) prompt :
  (forall fileOrUrl parallel os,
      outcome (ps1 fileOrUrl parallel os) <> Stop OutOfFuel ->
      ps2 fileOrUrl parallel os = ps1 fileOrUrl parallel os) ->
  forall input parallel childList os,
    outcome (loop ps1 input prompt parallel childList os) <> Stop OutOfFuel ->
    loop ps2 input prompt parallel childList os
    = loop ps1 input prompt parallel childList os.
Proof.
  intros Hps. induction input as [|line rest IH];
    intros parallel childList os; [reflexivity|].
  rewrite !loop_cases.
  destruct (line =? "exit")%string; [reflexivity|].
  destruct (skipped line).
  { rewrite outcome_prepend. intros H. now rewrite IH. }
  destruct (split line) as [|verb more]; [reflexivity|].
  destruct ((verb =? "SERIAL") || (verb =? "PARALLEL"))%string.
  - destruct more as [|ref more]; [reflexivity|].
    specialize (Hps ref (verb =? "PARALLEL")%string os).
    destruct (ps1 ref (verb =? "PARALLEL")%string os) as [[[[]|f] t] os1].
    + rewrite outcome_prepend. intros H.
      rewrite Hps by discriminate. now rewrite IH.
    + intros H. cbn in H, Hps.
      rewrite Hps; [reflexivity|]. intros E. apply H. congruence.
  - destruct (forkNexec (verb :: more) os) as [cp os1].
    destruct parallel.
    + rewrite outcome_prepend. intros H. now rewrite IH.
    + destruct (wait cp os1) as [code os2].
      rewrite outcome_prepend. intros H. now rewrite IH.
Qed.

Lemma process_with_stable (ps1 ps2 : string -> bool -> M OS unit) :
  (forall fileOrUrl parallel os,
      outcome (ps1 fileOrUrl parallel os) <> Stop OutOfFuel ->
      ps2 fileOrUrl parallel os = ps1 fileOrUrl parallel os) ->
  forall input prompt parallel os,
    outcome (process_with ps1 input prompt parallel os) <> Stop OutOfFuel ->
    process_with ps2 input prompt parallel os
    = process_with ps1 input prompt parallel os.
Proof.
  intros Hps input prompt parallel os H.
  unfold process_with, bind in *.
  rewrite (loop_stable ps1 ps2 prompt Hps); [reflexivity|].
  destruct (loop ps1 input prompt parallel [] os) as [[[childList|f] t] os1].
  - discriminate.
  - cbn in *. intros E. apply H. congruence.
Qed.

Lemma processScript_stable fuel :
  forall fuel', (fuel <= fuel')%nat ->
  forall fileOrUrl parallel (os : OS),
    outcome (processScript fuel fileOrUrl parallel os) <> Stop OutOfFuel ->
    processScript fuel' fileOrUrl parallel os
    = processScript fuel fileOrUrl parallel os.
Proof.
  induction fuel as [|fuel IH]; intros fuel' Hle fileOrUrl parallel os H.
  - now elim H.
  - destruct fuel' as [|fuel']; [lia|].
    rewrite !processScript_S in *. rewrite outcome_nested in H.
    unfold nested, bind in *.
    destruct (script_source fileOrUrl os) as [[[script|f] t0] os1];
      [|reflexivity].
    unfold process in *.
    rewrite (process_with_stable (processScript fuel) (processScript fuel'));
      [reflexivity|apply IH; lia|].
    destruct (process_with (processScript fuel) script "" parallel os1)
      as [[r t] os2]. exact H.
Qed.

(** X19. A run that does not exhaust the nesting budget gives the same
    outcome, the same trace and the same final state under every larger
    budget: the budget bounds the depth of nesting and shows nowhere
    else. *)
Theorem larger_budget_same_run :
  forall fuel fuel' input prompt parallel (os : OS),
    (fuel <= fuel')%nat ->
    outcome (process fuel input prompt parallel os) <> Stop OutOfFuel ->
    process fuel' input prompt parallel os
    = process fuel input prompt parallel os.
Proof.
  intros fuel fuel' input prompt parallel os Hle H.
  unfold process in *. apply process_with_stable; [|exact H].
  now apply processScript_stable.
Qed.

End Budget.

Lemma larger_budget_same_run_witness :
  process 9 ["ls"; "SERIAL leaf.sh"; "date"] "> " true 0%nat
  = process 1 ["ls"; "SERIAL leaf.sh"; "date"] "> " true 0%nat.
Proof.
  apply (larger_budget_same_run (sys := Sim.sim)).
  - lia.
  - discriminate.
Defined.

(* ------------------------------------------------------------------ *)
(** ** From the words of a command to its run *)

Section CommandLine.

Context {OS : Type} {sys : System OS}.

Lemma split_concat_plain words :
  forallb plain_word words = true ->
  split (String.concat " " words) = words.
Proof.
  intros H. rewrite split_rest_chars.
  rewrite <- (app_nil_r (chars _)), split_rest_plain_words by trivial.
  apply app_nil_r.
Qed.

Lemma skipped_concat_plain verb more :
  plain_word verb = true ->
  Str.starts_with_char "#" verb = false ->
  skipped (String.concat " " (verb :: more)) = false.
Proof.
  intros Hp Hc. destruct verb as [|c verb]; [discriminate Hp|].
  unfold skipped. destruct more; cbn [String.concat append Str.empty orb];
    exact Hc.
Qed.

(** X20. A command written as words that need no quotes, joined by single
    spaces, whose first word is neither SERIAL nor PARALLEL and does not
    begin with '#', and which is not the line "exit", is run in serial
    mode with exactly those words as its argument list: echoed, forked,
    waited for and its exit code reported. *)
Theorem plain_command_line_runs_its_words :
  forall fuel verb more prompt (os : OS),
    forallb plain_word (verb :: more) = true ->
    Str.starts_with_char "#" verb = false ->
    ((verb =? "SERIAL") || (verb =? "PARALLEL"))%string = false ->
    (String.concat " " (verb :: more) =? "exit")%string = false ->
    process fuel [String.concat " " (verb :: more)] prompt false os
    = let '(cp, os1) := forkNexec (verb :: more) os in
      let '(code, os2) := wait cp os1 in
      (Ok tt,
       [Prompt prompt; Running (verb :: more); Fork cp (verb :: more);
        Wait cp code; ExitCode code; Prompt prompt],
       os2).
Proof.
  intros fuel verb more prompt os Hplain Hhash Hverb Hexit.
  pose proof (split_concat_plain _ Hplain) as Hsplit.
  assert (Hskip : skipped (String.concat " " (verb :: more)) = false).
  { cbn [forallb] in Hplain. apply andb_prop in Hplain as [Hp _].
    now apply skipped_concat_plain. }
  assert (Hg : generic (String.concat " " (verb :: more)) = true).
  { unfold generic. now rewrite Hexit, Hskip, Hsplit, Hverb. }
  unfold process, process_with, bind.
  rewrite (loop_generic_serial _ _ _ _ _ _ Hg), Hsplit.
  destruct (forkNexec (verb :: more) os) as [cp os1].
  destruct (wait cp os1) as [code os2].
  now rewrite loop_end.
Qed.

End CommandLine.

Lemma plain_command_line_runs_its_words_witness :
  process 0 [String.concat " " ["gcc"; "-o"; "a.out"; "main.c"]] "> " false
          0%nat
  = let '(cp, os1) := forkNexec ["gcc"; "-o"; "a.out"; "main.c"] 0%nat in
    let '(code, os2) := wait cp os1 in
    (Ok tt,
     [Prompt "> "; Running ["gcc"; "-o"; "a.out"; "main.c"];
      Fork cp ["gcc"; "-o"; "a.out"; "main.c"];
      Wait cp code; ExitCode code; Prompt "> "],
     os2).
Proof.
  apply (plain_command_line_runs_its_words (sys := Sim.sim)); reflexivity.
Defined.

(* ------------------------------------------------------------------ *)
(** ** A fault in a nested script, and the interactive session *)

Section Session.

Context {OS : Type} {sys : System OS}.

(** X21. A line SERIAL or PARALLEL followed by a URL that begins with
    "http://" and has no '/' after the host stops the run that reads it,
    in either mode, as the first line of a script and at whatever point
    of a script the line stands after lines that ended normally: the
    lines after it are never read and nothing is drained.  In parallel
    mode every child forked by the lines before it stays in the group and
    is never waited for; in serial mode the group is empty and those
    children were waited for already. *)
Theorem url_without_path_stops_the_run :
  forall fuel verb url rest prompt parallel,
    verb = "SERIAL" \/ verb = "PARALLEL" ->
    plain_word url = true ->
    (Str.find url "http://" 0 =? 0) = true ->
    Str.size url < Str.npos ->
    Str.find_char url "/" 7 = Str.npos ->
    (forall os : OS,
        process (S fuel) (String.concat " " [verb; url] :: rest) prompt
                parallel os
        = (Stop StdOutOfRange,
           [Prompt prompt; Nested url (verb =? "PARALLEL")%string []], os))
    /\ (forall pre (os : OS) group t1 os1,
           Forall (fun l => (l =? "exit")%string = false) pre ->
           loop (processScript (S fuel)) pre prompt parallel [] os
           = (Ok group, t1 ++ [Prompt prompt], os1) ->
           process (S fuel) (pre ++ String.concat " " [verb; url] :: rest)
                   prompt parallel os
           = (Stop StdOutOfRange,
              t1 ++ [Prompt prompt;
                     Nested url (verb =? "PARALLEL")%string []],
              os1)
           /\ group = (if parallel then forks t1 else [])
           /\ waits (t1 ++ [Prompt prompt;
                            Nested url (verb =? "PARALLEL")%string []])
              = (if parallel then [] else forks t1)).
Proof.
  intros fuel verb url rest prompt parallel Hv Hplain Hgate Hsize Hpath.
  assert (Hsplit : split (String.concat " " [verb; url]) = [verb; url]).
  { apply split_concat_plain. cbn [forallb]. rewrite Hplain.
    now destruct Hv; subst verb. }
  assert (He : (String.concat " " [verb; url] =? "exit")%string = false)
    by now destruct Hv; subst verb.
  assert (Hs : skipped (String.concat " " [verb; url]) = false)
    by now destruct Hv; subst verb.
  assert (Hc : ((verb =? "SERIAL") || (verb =? "PARALLEL"))%string = true)
    by now destruct Hv; subst verb.
  pose proof (breakDownURL_throws_or_not url Hsize) as Hthrow.
  rewrite (http_gate_hostStart _ Hgate) in Hthrow. specialize (Hthrow Hpath).
  assert (Hline : forall childList (os : OS),
             loop (processScript (S fuel))
                  (String.concat " " [verb; url] :: rest) prompt parallel
                  childList os
             = (Stop StdOutOfRange,
                [Prompt prompt; Nested url (verb =? "PARALLEL")%string []],
                os)).
  { intros childList os. rewrite loop_cases, He, Hs, Hsplit, Hc.
    rewrite processScript_S. unfold nested, bind, script_source.
    rewrite Hgate. unfold setupHTTPStream. now rewrite Hthrow. }
  split.
  - intros os. unfold process, process_with, bind. now rewrite Hline.
  - intros pre os group t1 os1 Hpre Eloop.
    pose proof (loop_keeps_group (processScript (S fuel)) prompt parallel
                  (processScript_enclosed (S fuel)) pre [] os) as Hgroup.
    rewrite Eloop in Hgroup. destruct Hgroup as [Hq Hgroup].
    cbn [app] in Hgroup. rewrite forks_app, app_nil_r in Hgroup.
    split; [|split].
    + destruct (loop_app (processScript (S fuel)) pre
                  (String.concat " " [verb; url] :: rest) prompt parallel
                  Hpre _ _ _ _ _ Eloop) as (t1' & Ht & Eapp).
      apply app_inj_tail in Ht as [<- _].
      unfold process, process_with, bind.
      now rewrite Eapp, Hline.
    + exact Hgroup.
    + rewrite waits_app. cbn [waits]. rewrite app_nil_r.
      destruct parallel.
      * destruct (Hq eq_refl) as [Hw _]. rewrite waits_app in Hw.
        now apply app_eq_nil in Hw.
      * pose proof (loop_serial_shape (processScript (S fuel)) prompt
                      (processScript_shape (S fuel)) pre [] os) as Hshape.
        rewrite Eloop in Hshape. apply serial_shape_waits in Hshape.
        cbn [trace_of fst snd] in Hshape.
        rewrite waits_app, forks_app in Hshape. cbn in Hshape.
        now rewrite !app_nil_r in Hshape.
Qed.

Lemma loop_ends_with_prompt (ps : string -> bool -> M OS unit) prompt input :
  forall parallel childList os,
    (exists a, outcome (loop ps input prompt parallel childList os) = Ok a) ->
    exists t,
      trace_of (loop ps input prompt parallel childList os)
      = t ++ [Prompt prompt].
Proof.
  assert (Hpre : forall t0 (x : result ProcessList * trace * OS),
             (exists t, trace_of x = t ++ [Prompt prompt]) ->
             exists t, trace_of (prepend t0 x) = t ++ [Prompt prompt]).
  { intros t0 x [t Ht]. exists (t0 ++ t).
    now rewrite trace_of_prepend, Ht, app_assoc. }
  induction input as [|line rest IH]; intros parallel childList os.
  - intros _. now exists [].
  - rewrite loop_cases.
    destruct (line =? "exit")%string; [intros _; now exists []|].
    destruct (skipped line).
    { rewrite outcome_prepend. intros H. apply Hpre, IH, H. }
    destruct (split line) as [|verb more];
      [intros [a Ha]; discriminate Ha|].
    destruct ((verb =? "SERIAL") || (verb =? "PARALLEL"))%string.
    + destruct more as [|ref more]; [intros [a Ha]; discriminate Ha|].
      destruct (ps ref (verb =? "PARALLEL")%string os) as [[[[]|f] t] os1].
      * rewrite outcome_prepend. intros H. apply Hpre, IH, H.
      * intros [a Ha]. discriminate Ha.
    + destruct (forkNexec (verb :: more) os) as [cp os1].
      destruct parallel.
      * rewrite outcome_prepend. intros H. apply Hpre, IH, H.
      * destruct (wait cp os1) as [code os2].
        rewrite outcome_prepend. intros H. apply Hpre, IH, H.
Qed.

(** X22. The interactive session [main] prompts with "> " and runs in
    serial mode: when it comes to its end, by the line exit or at the end
    of the input, its last event is the prompt at which it stopped
    reading (nothing is waited for after the loop), its own prompts all
    show "> " and those of nested scripts are empty, and every command it
    ran itself was waited for before the next prompt. *)
Theorem main_session :
  forall fuel cin (os : OS) t os',
    main fuel cin os = (Ok tt, t, os') ->
    (exists t', t = t' ++ [Prompt "> "])
    /\ Forall (prompt_ok "> ") t
    /\ serial_shape t.
Proof.
  intros fuel cin os t os' H.
  assert (Ht : t = trace_of (main fuel cin os)) by now rewrite H.
  split; [|split].
  - revert H. unfold main, process, process_with, bind.
    pose proof (loop_ends_with_prompt (processScript fuel) "> " cin false []
                  os) as Hend.
    pose proof (loop_keeps_group (processScript fuel) "> " false
                  (processScript_enclosed fuel) cin [] os) as Hgroup.
    destruct (loop (processScript fuel) cin "> " false [] os)
      as [[[childList|f] t1] os1]; [|discriminate].
    destruct Hgroup as [_ ->]. cbn. intros [= <- _].
    destruct Hend as [t' Ht']; [now exists []|].
    exists t'. cbn in Ht'. now rewrite app_nil_r.
  - subst t. unfold main.
    apply (process_with_events (prompt_ok "> ") false (processScript fuel)
             "> " (prompt_ok_prompt _) (prompt_ok_running _)
             (prompt_ok_fork _) (prompt_ok_wait _) (prompt_ok_exit _)).
    + intros. apply processScript_prompts.
    + now left.
  - subst t. apply process_serial_shape.
Qed.

End Session.

Lemma url_without_path_stops_the_run_witness :
  process 1 (String.concat " " ["PARALLEL"; "http://host"] :: ["date"]) "> "
          true 0%nat
  = (Stop StdOutOfRange,
     [Prompt "> "; Nested "http://host" ("PARALLEL" =? "PARALLEL")%string []],
     0%nat)
  /\ (process 1 (["ls"] ++ String.concat " " ["PARALLEL"; "http://host"]
                        :: ["date"]) "> " true 0%nat
      = (Stop StdOutOfRange,
         [Prompt "> "; Running ["ls"]; Fork 100%nat ["ls"]]
         ++ [Prompt "> ";
             Nested "http://host" ("PARALLEL" =? "PARALLEL")%string []],
         1%nat)
      /\ [100%nat]
         = (if true
            then forks [Prompt "> "; Running ["ls"]; Fork 100%nat ["ls"]]
            else [])
      /\ waits ([Prompt "> "; Running ["ls"]; Fork 100%nat ["ls"]]
                ++ [Prompt "> ";
                    Nested "http://host" ("PARALLEL" =? "PARALLEL")%string
                           []])
         = (if true then []
            else forks [Prompt "> "; Running ["ls"]; Fork 100%nat ["ls"]])).
Proof.
  destruct (url_without_path_stops_the_run (sys := Sim.sim)
              0 "PARALLEL" "http://host" ["date"] "> " true
              (or_intror eq_refl) eq_refl eq_refl eq_refl eq_refl)
    as [Hfirst Hafter].
  split.
  - exact (Hfirst 0%nat).
  - apply (Hafter ["ls"] 0%nat [100%nat]).
    + repeat constructor.
    + reflexivity.
Defined.

Lemma main_session_witness :
  (exists t',
      [Prompt "> "; Running ["ls"]; Fork 100%nat ["ls"]; Wait 100%nat 1;
       ExitCode 1; Prompt "> "]
      = t' ++ [Prompt "> "])
  /\ Forall (prompt_ok "> ")
            [Prompt "> "; Running ["ls"]; Fork 100%nat ["ls"];
             Wait 100%nat 1; ExitCode 1; Prompt "> "]
  /\ serial_shape
       [Prompt "> "; Running ["ls"]; Fork 100%nat ["ls"]; Wait 100%nat 1;
        ExitCode 1; Prompt "> "].
Proof.
  apply (main_session (sys := Sim.sim) 0 ["ls"; "exit"; "date"] 0%nat _ 1%nat).
  reflexivity.
Defined.
